(** * Smith: the Bundle sync task

    A shallow embedding of [pkg/controller/controller_sync_task.go]: the
    reconciliation pass of one Bundle ([process]) and the folding of its
    outcome into the Bundle's status conditions ([handleProcessResult]).

    The sync task talks to its collaborators (object store, smart client,
    ready checker, bundle client) through interfaces; they are kept
    abstract in the record [Env] and every call to them is recorded, with
    its answer, in a trace.

    Module [app] embeds the watch bookkeeping of the application package
    ([splitTprName], [watchTpr], [forgetTpr]). *)

From Stdlib Require Import Ascii String.
From stdpp Require Import gmap strings list fin_maps relations.

Open Scope string_scope.
Open Scope list_scope.

(** ** Errors

    Go [error] values, as far as the sync task can tell them apart: the two
    sentinels of package [context], the [*StatusError] of
    [k8s.io/apimachinery/pkg/api/errors] (told apart by its reason), a plain
    error built by [fmt.Errorf], [errors.Errorf] or [errors.New], and the
    wrapper built by [errors.Wrapf] of [github.com/pkg/errors], the only
    one that has a cause. *)

Inductive StatusReason : Type :=
| StatusReasonUnknown
| StatusReasonAlreadyExists
| StatusReasonConflict
| StatusReasonNotFound
| StatusReasonInternalError.

Inductive error : Type :=
| context_Canceled
| context_DeadlineExceeded
| StatusError (reason : StatusReason) (message : string)
| errorString (s : string)
| withMessage (cause : error) (msg : string).

Module errors.

(** [err.Error()]. *)
Fixpoint Error (e : error) : string :=
  match e with
  | context_Canceled => "context canceled"
  | context_DeadlineExceeded => "context deadline exceeded"
  | StatusError _ message => message
  | errorString s => s
  | withMessage cause msg => msg +:+ ": " +:+ Error cause
  end.

(** [errors.Cause]: unwrap as long as the error has a cause. *)
Fixpoint Cause (e : error) : error :=
  match e with
  | withMessage cause _ => Cause cause
  | _ => e
  end.

Definition Wrapf (err : error) (msg : string) : error := withMessage err msg.
Definition Errorf (msg : string) : error := errorString msg.

End errors.

Module api_errors.

(** [ReasonForError]: only an API status error carries a reason. *)
Definition ReasonForError (e : error) : StatusReason :=
  match e with
  | StatusError reason _ => reason
  | _ => StatusReasonUnknown
  end.

Definition IsAlreadyExists (e : error) : bool :=
  match ReasonForError e with StatusReasonAlreadyExists => true | _ => false end.

Definition IsConflict (e : error) : bool :=
  match ReasonForError e with StatusReasonConflict => true | _ => false end.

Definition IsNotFound (e : error) : bool :=
  match ReasonForError e with StatusReasonNotFound => true | _ => false end.

End api_errors.

(** A Go result pair [(T, error)] that follows the usual convention: the
    value is meaningful only when the error is nil. *)
Inductive result (T : Type) : Type :=
| Ok (t : T)
| Err (e : error).
Arguments Ok {T} t.
Arguments Err {T} e.

(** ** Objects *)

Definition ResourceName := string.
Definition UID := string.

Record GroupVersionKind : Type := mkGVK {
  gvk_Group : string;
  gvk_Version : string;
  gvk_Kind : string
}.

#[global] Instance GroupVersionKind_eq_dec : EqDecision GroupVersionKind.
Proof. solve_decision. Defined.

#[global] Instance GroupVersionKind_countable : Countable GroupVersionKind.
Proof.
  refine (inj_countable'
            (fun g => (gvk_Group g, gvk_Version g, gvk_Kind g))
            (fun t => mkGVK t.1.1 t.1.2 t.2) _).
  by intros [].
Defined.

(** [GroupVersionKind.String()]. *)
Definition GroupVersionKind_String (g : GroupVersionKind) : string :=
  gvk_Group g +:+ "/" +:+ gvk_Version g +:+ ", Kind=" +:+ gvk_Kind g.

(** [GroupVersion.String()], the [apiVersion] of an object. *)
Definition GroupVersion_String (g : GroupVersionKind) : string :=
  if decide (gvk_Group g = "") then gvk_Version g
  else gvk_Group g +:+ "/" +:+ gvk_Version g.

(** [schema.GroupResource.String()]. *)
Definition GroupResource_String (group resource : string) : string :=
  if decide (group = "") then resource else resource +:+ "." +:+ group.

Record OwnerReference : Type := mkOwnerReference {
  ref_APIVersion : string;
  ref_Kind : string;
  ref_Name : string;
  ref_UID : UID;
  ref_Controller : option bool;
  ref_BlockOwnerDeletion : option bool
}.

(** The free-form part of an object: a tree of maps, sequences and scalars. *)
#[local] Unset Elimination Schemes.
Inductive Value : Type :=
| VNull
| VBool (b : bool)
| VNumber (n : Z)
| VString (s : string)
| VArray (items : list Value)
| VObject (fields : list (string * Value)).
#[local] Set Elimination Schemes.

(** An API object ([*unstructured.Unstructured], or a [runtime.Object] that
    is also a [meta_v1.Object]): the metadata the sync task reads and
    writes through accessors, and the rest of its content. *)
Record Unstructured : Type := mkUnstructured {
  obj_GVK : GroupVersionKind;
  obj_Name : string;
  obj_UID : UID;
  obj_Labels : gmap string string;
  obj_OwnerReferences : list OwnerReference;
  obj_DeletionTimestamp : option Z;
  obj_Content : list (string * Value)
}.

Definition GetAPIVersion (o : Unstructured) : string := GroupVersion_String (obj_GVK o).
Definition GetKind (o : Unstructured) : string := gvk_Kind (obj_GVK o).

Definition SetLabels (o : Unstructured) (labels : gmap string string) : Unstructured :=
  mkUnstructured (obj_GVK o) (obj_Name o) (obj_UID o) labels
                 (obj_OwnerReferences o) (obj_DeletionTimestamp o) (obj_Content o).

Definition SetOwnerReferences (o : Unstructured) (refs : list OwnerReference) : Unstructured :=
  mkUnstructured (obj_GVK o) (obj_Name o) (obj_UID o) (obj_Labels o)
                 refs (obj_DeletionTimestamp o) (obj_Content o).

(** [meta_v1.GetControllerOf]: the first owner reference marked as controller. *)
Fixpoint GetControllerOf (refs : list OwnerReference) : option OwnerReference :=
  match refs with
  | [] => None
  | ref :: rest =>
      match ref_Controller ref with
      | Some true => Some ref
      | _ => GetControllerOf rest
      end
  end.

(** [meta_v1.IsControlledBy(obj, owner)]. *)
Definition IsControlledBy (o : Unstructured) (owner : UID) : bool :=
  match GetControllerOf (obj_OwnerReferences o) with
  | None => false
  | Some ref => bool_decide (ref_UID ref = owner)
  end.

(** The key of a child object in deletion reconciliation. *)
Record objectRef : Type := mkObjectRef {
  oref_GroupVersionKind : GroupVersionKind;
  oref_Name : string
}.

#[global] Instance objectRef_eq_dec : EqDecision objectRef.
Proof. solve_decision. Defined.

#[global] Instance objectRef_countable : Countable objectRef.
Proof.
  refine (inj_countable'
            (fun r => (oref_GroupVersionKind r, oref_Name r))
            (fun t => mkObjectRef t.1 t.2) _).
  by intros [].
Defined.

Definition refOf (o : Unstructured) : objectRef :=
  mkObjectRef (obj_GVK o) (obj_Name o).

(** ** Bundles (package [smith_v1]) *)

Inductive BundleConditionType : Type := BundleInProgress | BundleReady | BundleError.

#[global] Instance BundleConditionType_eq_dec : EqDecision BundleConditionType.
Proof. solve_decision. Defined.

Inductive ConditionStatus : Type := ConditionTrue | ConditionFalse | ConditionUnknown.

#[global] Instance ConditionStatus_eq_dec : EqDecision ConditionStatus.
Proof. solve_decision. Defined.

Record BundleCondition : Type := mkBundleCondition {
  cond_Type : BundleConditionType;
  cond_Status : ConditionStatus;
  cond_Reason : string;
  cond_Message : string
}.

#[global] Instance BundleCondition_eq_dec : EqDecision BundleCondition.
Proof. solve_decision. Defined.

Definition BundleReasonRetriableError : string := "RetriableError".
Definition BundleReasonTerminalError : string := "TerminalError".

Record Resource : Type := mkResource {
  res_Name : ResourceName;
  res_DependsOn : list ResourceName;
  res_Spec : Unstructured
}.

Record Bundle : Type := mkBundle {
  bundle_Namespace : string;
  bundle_Name : string;
  bundle_UID : UID;
  bundle_Labels : gmap string string;
  bundle_Resources : list Resource;
  bundle_Conditions : list BundleCondition
}.

Definition setConditions (b : Bundle) (conds : list BundleCondition) : Bundle :=
  mkBundle (bundle_Namespace b) (bundle_Name b) (bundle_UID b) (bundle_Labels b)
           (bundle_Resources b) conds.

(** [Bundle.GetCondition]: the first condition of the given type. *)
Fixpoint GetCondition (conds : list BundleCondition) (t : BundleConditionType)
  : option BundleCondition :=
  match conds with
  | [] => None
  | c :: rest => if decide (cond_Type c = t) then Some c else GetCondition rest t
  end.

(** Modelled from the spec: [Bundle.UpdateCondition] of package [smith_v1]
    is not part of the sources at hand.  "Conditions are updated in place by
    type; UpdateCondition returns whether the effective value changed", a
    condition being the tuple (type, status, reason, message): the first
    condition of the same type is replaced, a condition of a new type is
    appended, and the answer is [true] when the condition is new or differs
    from the one it replaces. *)
Fixpoint replaceCondition (conds : list BundleCondition) (c : BundleCondition)
  : list BundleCondition :=
  match conds with
  | [] => [c]
  | c0 :: rest =>
      if decide (cond_Type c0 = cond_Type c) then c :: rest
      else c0 :: replaceCondition rest c
  end.

Definition UpdateCondition (b : Bundle) (c : BundleCondition) : Bundle * bool :=
  match GetCondition (bundle_Conditions b) (cond_Type c) with
  | None => (setConditions b (bundle_Conditions b ++ [c]), true)
  | Some old =>
      (setConditions b (replaceCondition (bundle_Conditions b) c),
       negb (bool_decide (old = c)))
  end.

(** ** The dependency graph (package [graph]) *)

Module graph.

Definition V := ResourceName.

Record Vertex : Type := mkVertex { Edges : list V }.

Record Graph : Type := mkGraph {
  Vertices : gmap V Vertex;
  orderedVertices : list V
}.

(** Modelled from the spec: package [pkg/util/graph] is not part of the
    sources at hand.  "Vertices are resource names; an edge from A to B
    means A depends on B.  Vertices added in declaration order; sort
    breaks ties by declaration order.  Adding an edge whose endpoints are
    not present fails with a structural error.  A cycle is reported as a
    non-retriable error."  The sort below repeatedly emits the first
    vertex, in declaration order, that is not yet emitted and whose edge
    targets all are; it reports a cycle when vertices are left over. *)
Definition NewGraph : Graph := mkGraph ∅ [].

Definition AddVertex (g : Graph) (key : V) : Graph :=
  mkGraph (<[key := mkVertex []]> (Vertices g)) (orderedVertices g ++ [key]).

Definition AddEdge (g : Graph) (from to : V) : result Graph :=
  match Vertices g !! from with
  | None => Err (errors.Errorf ("vertex " +:+ from +:+ " not found"))
  | Some f =>
      match Vertices g !! to with
      | None => Err (errors.Errorf ("vertex " +:+ to +:+ " not found"))
      | Some _ =>
          Ok (mkGraph (<[from := mkVertex (Edges f ++ [to])]> (Vertices g))
                      (orderedVertices g))
      end
  end.

Definition edgesOf (g : Graph) (v : V) : list V :=
  match Vertices g !! v with
  | Some vx => Edges vx
  | None => []
  end.

Definition emitted (sorted : list V) (v : V) : bool := bool_decide (v ∈ sorted).

Definition selectable (g : Graph) (sorted : list V) (v : V) : bool :=
  negb (emitted sorted v) && forallb (emitted sorted) (edgesOf g v).

Fixpoint sortRounds (rounds : nat) (g : Graph) (sorted : list V) : list V :=
  match rounds with
  | O => sorted
  | S rounds' =>
      match List.find (selectable g sorted) (orderedVertices g) with
      | Some v => sortRounds rounds' g (sorted ++ [v])
      | None => sorted
      end
  end.

Definition TopologicalSort (g : Graph) : result (list V) :=
  let sorted := sortRounds (length (orderedVertices g)) g [] in
  if forallb (emitted sorted) (orderedVertices g) then Ok sorted
  else Err (errors.Errorf "cycle error").

End graph.

(** ** Collaborators *)

(** A [dynamic.ResourceInterface]: the client for one kind of resource in
    one namespace, as handed out by [SmartClient.ForGVK]. *)
Record ResourceClient : Type := mkResourceClient {
  client_GVK : GroupVersionKind;
  client_Namespace : string
}.

Inductive DeletionPropagation : Type :=
| DeletePropagationOrphan
| DeletePropagationBackground
| DeletePropagationForeground.

Record DeleteOptions : Type := mkDeleteOptions {
  opts_PreconditionsUID : option UID;
  opts_PropagationPolicy : option DeletionPropagation
}.

(** What the sync task consumes from the outside.  [World] is whatever
    state the API server, the store and the checkers keep; every method
    may read and change it.  The record also carries the constants of
    packages [smith] and [smith_v1] and the renderings of [fmt] verbs that
    the sources at hand do not define, and the order in which Go ranges
    over the map of objects to delete: the language leaves it open, but
    every entry is visited once. *)
Record Env (World : Type) : Type := mkEnv {
  BundleNameLabel : string;
  BundleResourceGroupVersion : string;
  BundleResourceKind : string;
  fmt_q : string -> string;
  fmt_v_OwnerReference : OwnerReference -> string;
  BundleStatus_ShortString : list BundleCondition -> string;
  Resource_ToUnstructured : Resource -> result Unstructured;
  Spec_ProcessObject :
    ResourceName -> gmap ResourceName Unstructured -> list ResourceName ->
    Unstructured -> result Unstructured;
  SpecCheck_CompareActualVsSpec :
    Unstructured -> Unstructured -> result (Unstructured * bool);
  SmartClient_ForGVK : GroupVersionKind -> string -> World -> option error * World;
  Store_Get :
    GroupVersionKind -> string -> string -> World ->
    result (option Unstructured) * World;
  Store_GetObjectsForBundle :
    string -> string -> World -> result (list Unstructured) * World;
  Client_Create : ResourceClient -> Unstructured -> World -> result Unstructured * World;
  Client_Update : ResourceClient -> Unstructured -> World -> result Unstructured * World;
  Client_Delete : ResourceClient -> string -> DeleteOptions -> World -> option error * World;
  ReadyChecker_IsReady : Unstructured -> World -> (bool * bool * option error) * World;
  Bundles_Update : string -> Bundle -> World -> result Bundle * World;
  rangeOrder : gmap objectRef UID -> list (objectRef * UID);
  rangeOrder_visits_each_once : forall m, rangeOrder m ≡ₚ map_to_list m
}.

Arguments BundleNameLabel {World} _.
Arguments BundleResourceGroupVersion {World} _.
Arguments BundleResourceKind {World} _.
Arguments fmt_q {World} _ _.
Arguments fmt_v_OwnerReference {World} _ _.
Arguments BundleStatus_ShortString {World} _ _.
Arguments Resource_ToUnstructured {World} _ _.
Arguments Spec_ProcessObject {World} _ _ _ _ _.
Arguments SpecCheck_CompareActualVsSpec {World} _ _ _.
Arguments SmartClient_ForGVK {World} _ _ _ _.
Arguments Store_Get {World} _ _ _ _ _.
Arguments Store_GetObjectsForBundle {World} _ _ _ _.
Arguments Client_Create {World} _ _ _ _.
Arguments Client_Update {World} _ _ _ _.
Arguments Client_Delete {World} _ _ _ _ _.
Arguments ReadyChecker_IsReady {World} _ _ _.
Arguments Bundles_Update {World} _ _ _ _.
Arguments rangeOrder {World} _ _.
Arguments rangeOrder_visits_each_once {World} _ _.

(** One call to a collaborator, with its answer. *)
Inductive Event : Type :=
| EvForGVK (gvk : GroupVersionKind) (namespace : string) (resp : option error)
| EvStoreGet (gvk : GroupVersionKind) (namespace name : string)
             (resp : result (option Unstructured))
| EvStoreGetObjectsForBundle (namespace name : string) (resp : result (list Unstructured))
| EvCreate (c : ResourceClient) (obj : Unstructured) (resp : result Unstructured)
| EvUpdate (c : ResourceClient) (obj : Unstructured) (resp : result Unstructured)
| EvDelete (c : ResourceClient) (name : string) (opts : DeleteOptions) (resp : option error)
| EvIsReady (obj : Unstructured) (resp : bool * bool * option error)
| EvBundlesUpdate (namespace : string) (b : Bundle) (resp : result Bundle).

(** The calls that write to the API server. *)
Definition isWrite (ev : Event) : bool :=
  match ev with
  | EvCreate _ _ _ | EvUpdate _ _ _ | EvDelete _ _ _ _ | EvBundlesUpdate _ _ _ => true
  | _ => false
  end.

(** One line of the log, by the [log.Printf] that wrote it (each line is
    prefixed with the namespace and name of the bundle). *)
Inductive LogEntry : Type :=
| LogDependencyNotReady (dependency v : ResourceName)
| LogCheckingResource (v : ResourceName)
| LogResourceReady (v : ResourceName) (ready : bool)
| LogObjectFound (gvk : GroupVersionKind) (name : string)
| LogObjectNotFound (gvk : GroupVersionKind) (name : string)
| LogObjectCreated (gvk : GroupVersionKind) (name : string)
| LogObjectCorrectSpec (name : string)
| LogObjectUpdated (name : string)
| LogObjectNotOwned (gvk : GroupVersionKind) (name : string) (uid : UID)
                    (refs : list OwnerReference)
| LogDeletingObject (gvk : GroupVersionKind) (name : string)
| LogFailedToGetClient (gvk : GroupVersionKind) (err : error)
| LogFailedToDelete (gvk : GroupVersionKind) (name : string) (err : error)
| LogSetBundleStatus (conds : list BundleCondition).

(** ** The sync task *)

Section SyncTask.

Context {World : Type}.
Variable env : Env World.

(** The fields of [syncTask] that change during a pass, the state of the
    collaborators, and what the pass has done so far: the calls it made
    and the lines it logged. *)
Record syncTask : Type := mkSyncTask {
  st_bundle : Bundle;
  st_readyResources : gmap ResourceName Unstructured;
  st_world : World;
  st_trace : list Event;
  st_log : list LogEntry
}.

(** A method of the sync task: it may change the task and the world, and
    it may panic ([None]). *)
Definition M (A : Type) : Type := syncTask -> option (A * syncTask).

Definition ret {A} (a : A) : M A := fun s => Some (a, s).

Definition bind {A B} (m : M A) (k : A -> M B) : M B :=
  fun s => match m s with
           | Some (a, s') => k a s'
           | None => None
           end.

Definition panic {A} : M A := fun _ => None.

Notation "x <- c ;; k" := (bind c (fun x => k))
  (at level 100, c at next level, right associativity).
Notation "c ;;; k" := (bind c (fun _ => k))
  (at level 100, right associativity).

Definition getBundle : M Bundle := fun s => Some (st_bundle s, s).

Definition getReadyResources : M (gmap ResourceName Unstructured) :=
  fun s => Some (st_readyResources s, s).

Definition setBundle (b : Bundle) : M unit :=
  fun s => Some (tt, mkSyncTask b (st_readyResources s) (st_world s)
                                (st_trace s) (st_log s)).

Definition setReadyResources (r : gmap ResourceName Unstructured) : M unit :=
  fun s => Some (tt, mkSyncTask (st_bundle s) r (st_world s) (st_trace s) (st_log s)).

Definition logPrintf (l : LogEntry) : M unit :=
  fun s => Some (tt, mkSyncTask (st_bundle s) (st_readyResources s) (st_world s)
                                (st_trace s) (st_log s ++ [l])).

(** Call a collaborator and record the call. *)
Definition invoke {A} (f : World -> A * World) (ev : A -> Event) : M A :=
  fun s => let '(a, w) := f (st_world s) in
           Some (a, mkSyncTask (st_bundle s) (st_readyResources s) w
                               (st_trace s ++ [ev a]) (st_log s)).

Definition ForGVK (gvk : GroupVersionKind) (namespace : string) : M (result ResourceClient) :=
  err <- invoke (SmartClient_ForGVK env gvk namespace) (EvForGVK gvk namespace) ;;
  ret match err with
      | Some e => Err e
      | None => Ok (mkResourceClient gvk namespace)
      end.

Definition storeGet (gvk : GroupVersionKind) (namespace name : string)
  : M (result (option Unstructured)) :=
  invoke (Store_Get env gvk namespace name) (EvStoreGet gvk namespace name).

Definition storeGetObjectsForBundle (namespace name : string)
  : M (result (list Unstructured)) :=
  invoke (Store_GetObjectsForBundle env namespace name)
         (EvStoreGetObjectsForBundle namespace name).

Definition Create (c : ResourceClient) (obj : Unstructured) : M (result Unstructured) :=
  invoke (Client_Create env c obj) (EvCreate c obj).

Definition Update (c : ResourceClient) (obj : Unstructured) : M (result Unstructured) :=
  invoke (Client_Update env c obj) (EvUpdate c obj).

Definition Delete (c : ResourceClient) (name : string) (opts : DeleteOptions)
  : M (option error) :=
  invoke (Client_Delete env c name opts) (EvDelete c name opts).

Definition IsReady (obj : Unstructured) : M (bool * bool * option error) :=
  invoke (ReadyChecker_IsReady env obj) (EvIsReady obj).

Definition BundlesUpdate (namespace : string) (b : Bundle) : M (result Bundle) :=
  invoke (Bundles_Update env namespace b) (EvBundlesUpdate namespace b).

(** *** evalSpec *)

Definition mergeLabels (labels : list (gmap string string)) : gmap string string :=
  foldl (fun result m => m ∪ result) ∅ labels.

Definition blockOwnerDeletion (ref : OwnerReference) : OwnerReference :=
  mkOwnerReference (ref_APIVersion ref) (ref_Kind ref) (ref_Name ref) (ref_UID ref)
                   (ref_Controller ref) (Some true).

(** The loop over the owner references that the specification brings. *)
Fixpoint checkOwnerReferences (name : ResourceName) (refs : list OwnerReference)
  : result (list OwnerReference) :=
  match refs with
  | [] => Ok []
  | ref :: rest =>
      match ref_Controller ref with
      | Some true =>
          Err (errorString ("cannot create resource " +:+ fmt_q env name +:+
                            " with controller owner reference " +:+
                            fmt_v_OwnerReference env ref))
      | _ =>
          match checkOwnerReferences name rest with
          | Ok rest' => Ok (blockOwnerDeletion ref :: rest')
          | Err e => Err e
          end
      end
  end.

Definition bundleReference (b : Bundle) : OwnerReference :=
  mkOwnerReference (BundleResourceGroupVersion env) (BundleResourceKind env)
                   (bundle_Name b) (bundle_UID b) (Some true) (Some true).

Definition dependencyReference (obj : Unstructured) : OwnerReference :=
  mkOwnerReference (GetAPIVersion obj) (GetKind obj) (obj_Name obj) (obj_UID obj)
                   None (Some true).

(** The loop over [res.DependsOn]; a dependency that is not in
    [readyResources] is a nil object, and reading it panics. *)
Fixpoint dependencyReferences (ready : gmap ResourceName Unstructured)
         (deps : list ResourceName) : option (list OwnerReference) :=
  match deps with
  | [] => Some []
  | dep :: rest =>
      match ready !! dep with
      | None => None
      | Some obj =>
          match dependencyReferences ready rest with
          | Some refs => Some (dependencyReference obj :: refs)
          | None => None
          end
      end
  end.

Definition evalSpec (res : Resource) : M (result Unstructured) :=
  match Resource_ToUnstructured env res with
  | Err err => ret (Err err)
  | Ok spec =>
      ready <- getReadyResources ;;
      match Spec_ProcessObject env (res_Name res) ready (res_DependsOn res) spec with
      | Err err => ret (Err err)
      | Ok spec =>
          b <- getBundle ;;
          let spec := SetLabels spec (mergeLabels
                        [bundle_Labels b; obj_Labels spec;
                         {[ BundleNameLabel env := bundle_Name b ]}]) in
          match checkOwnerReferences (res_Name res) (obj_OwnerReferences spec) with
          | Err err => ret (Err err)
          | Ok refs =>
              let refs := refs ++ [bundleReference b] in
              match dependencyReferences ready (res_DependsOn res) with
              | None => panic
              | Some deps => ret (Ok (SetOwnerReferences spec (refs ++ deps)))
              end
          end
      end
  end.

(** *** createOrUpdate *)

(** The three results [(actualRet, retriable, e)] of [createOrUpdate],
    [createResource] and [updateResource]: the object with
    [retriable = false] and a nil error, or no object with a flag and an
    error. *)
Inductive applied : Type :=
| Applied (actual : Unstructured)
| NotApplied (retriable : bool) (e : error).

(** [api_errors.NewConflict]. *)
Definition NewConflict (group resource name : string) (err : error) : error :=
  StatusError StatusReasonConflict
              ("Operation cannot be fulfilled on " +:+ GroupResource_String group resource
               +:+ " " +:+ fmt_q env name +:+ ": " +:+ errors.Error err).

Definition createResource (resClient : ResourceClient) (spec : Unstructured) : M applied :=
  let gvk := obj_GVK spec in
  r <- Create resClient spec ;;
  match r with
  | Ok response =>
      logPrintf (LogObjectCreated gvk (obj_Name spec)) ;;;
      ret (Applied response)
  | Err err =>
      if api_errors.IsAlreadyExists err then
        let err := NewConflict (gvk_Group gvk) (gvk_Kind gvk) (obj_Name spec) err in
        ret (NotApplied false
               (errors.Wrapf err ("object " +:+ fmt_q env (obj_Name spec) +:+
                                  " found, but not in Store yet (will re-process)")))
      else ret (NotApplied true err)
  end.

Definition updateResource (resClient : ResourceClient) (spec actual : Unstructured)
  : M applied :=
  b <- getBundle ;;
  if bool_decide (obj_DeletionTimestamp actual <> None) then
    ret (NotApplied false
           (errorString ("object " +:+ GroupVersionKind_String (obj_GVK actual) +:+ " " +:+
                         fmt_q env (obj_Name actual) +:+ " is marked for deletion")))
  else if negb (IsControlledBy actual (bundle_UID b)) then
    ret (NotApplied false
           (errorString ("object " +:+ GroupVersionKind_String (obj_GVK actual) +:+ " " +:+
                         fmt_q env (obj_Name actual) +:+ " is not owned by the Bundle")))
  else
    match SpecCheck_CompareActualVsSpec env spec actual with
    | Err err => ret (NotApplied false err)
    | Ok (updated, true) =>
        logPrintf (LogObjectCorrectSpec (obj_Name spec)) ;;;
        ret (Applied updated)
    | Ok (updated, false) =>
        r <- Update resClient updated ;;
        match r with
        | Err err =>
            if api_errors.IsConflict err then
              ret (NotApplied false
                     (errors.Wrapf err
                        ("object " +:+ fmt_q env (bundle_Namespace b) +:+
                         " update resulted in conflict (will re-process)" +:+
                         "%!(EXTRA string=" +:+ bundle_Name b +:+
                         ", string=" +:+ obj_Name spec +:+ ")")))
            else ret (NotApplied true err)
        | Ok updated =>
            logPrintf (LogObjectUpdated (obj_Name spec)) ;;;
            ret (Applied updated)
        end
    end.

Definition createOrUpdate (spec : Unstructured) : M applied :=
  b <- getBundle ;;
  let gvk := obj_GVK spec in
  c <- ForGVK gvk (bundle_Namespace b) ;;
  match c with
  | Err err => ret (NotApplied false err)
  | Ok resClient =>
      g <- storeGet gvk (bundle_Namespace b) (obj_Name spec) ;;
      match g with
      | Err err => ret (NotApplied false err)
      | Ok (Some obj) =>
          logPrintf (LogObjectFound gvk (obj_Name spec)) ;;;
          updateResource resClient spec obj
      | Ok None =>
          logPrintf (LogObjectNotFound gvk (obj_Name spec)) ;;;
          createResource resClient spec
      end
  end.

(** *** checkResource *)

Definition checkResource (res : Resource) : M (option Unstructured * bool * option error) :=
  s <- evalSpec res ;;
  match s with
  | Err err => ret (None, false, Some err)
  | Ok spec =>
      a <- createOrUpdate spec ;;
      match a with
      | NotApplied retriable err => ret (None, retriable, Some err)
      | Applied resUpdated =>
          r <- IsReady resUpdated ;;
          let '(ready, retriable, err) := r in
          match err with
          | Some _ => ret (None, retriable, err)
          | None =>
              if negb ready then ret (None, retriable, err)
              else ret (Some resUpdated, false, None)
          end
      end
  end.

(** *** sortBundle *)

Fixpoint addEdges (g : graph.Graph) (from : ResourceName) (deps : list ResourceName)
  : result graph.Graph :=
  match deps with
  | [] => Ok g
  | d :: rest =>
      match graph.AddEdge g from d with
      | Err err => Err err
      | Ok g' => addEdges g' from rest
      end
  end.

Fixpoint addAllEdges (g : graph.Graph) (resources : list Resource) : result graph.Graph :=
  match resources with
  | [] => Ok g
  | res :: rest =>
      match addEdges g (res_Name res) (res_DependsOn res) with
      | Err err => Err err
      | Ok g' => addAllEdges g' rest
      end
  end.

Definition addVertices (resources : list Resource) : graph.Graph :=
  foldl (fun g res => graph.AddVertex g (res_Name res)) graph.NewGraph resources.

Definition sortBundle (b : Bundle) : result (graph.Graph * list graph.V) :=
  let g := addVertices (bundle_Resources b) in
  match addAllEdges g (bundle_Resources b) with
  | Err err => Err err
  | Ok g =>
      match graph.TopologicalSort g with
      | Err err => Err err
      | Ok sorted => Ok (g, sorted)
      end
  end.

(** *** process *)

Fixpoint buildResourceMap (resources : list Resource)
         (resourceMap : gmap ResourceName Resource)
  : result (gmap ResourceName Resource) :=
  match resources with
  | [] => Ok resourceMap
  | res :: rest =>
      match resourceMap !! res_Name res with
      | Some _ =>
          Err (errors.Errorf ("bundle contains two resources with the same name " +:+
                              fmt_q env (res_Name res)))
      | None => buildResourceMap rest (<[res_Name res := res]> resourceMap)
      end
  end.

(** The inner loop of [process]: are all dependencies of [v] ready? *)
Fixpoint dependenciesReady (v : graph.V) (deps : list graph.V) : M bool :=
  match deps with
  | [] => ret true
  | dependency :: rest =>
      ready <- getReadyResources ;;
      match ready !! dependency with
      | None => logPrintf (LogDependencyNotReady dependency v) ;;; ret false
      | Some _ => dependenciesReady v rest
      end
  end.

(** The value Go hands out for a key that a map of resources lacks. *)
Definition zeroResource : Resource :=
  mkResource "" [] (mkUnstructured (mkGVK "" "" "") "" "" ∅ [] None []).

(** One turn of the loop over the sorted vertices: [None] when the loop
    goes on, the result of [process] when it returns from inside. *)
Definition visitVertex (g : graph.Graph) (resourceMap : gmap ResourceName Resource)
           (v : graph.V) : M (option (bool * error)) :=
  match graph.Vertices g !! v with
  | None => panic
  | Some vx =>
      ok <- dependenciesReady v (graph.Edges vx) ;;
      if negb ok then ret None
      else
        logPrintf (LogCheckingResource v) ;;;
        let res := default zeroResource (resourceMap !! v) in
        r <- checkResource res ;;
        let '(readyResource, retriable, err) := r in
        match err with
        | Some e => ret (Some (retriable, e))
        | None =>
            logPrintf (LogResourceReady v
                         (match readyResource with Some _ => true | None => false end)) ;;;
            match readyResource with
            | Some obj =>
                ready <- getReadyResources ;;
                setReadyResources (<[v := obj]> ready) ;;;
                ret None
            | None => ret None
            end
        end
  end.

Fixpoint visitVertices (g : graph.Graph) (resourceMap : gmap ResourceName Resource)
         (sorted : list graph.V) : M (option (bool * error)) :=
  match sorted with
  | [] => ret None
  | v :: rest =>
      r <- visitVertex g resourceMap v ;;
      match r with
      | Some failure => ret (Some failure)
      | None => visitVertices g resourceMap rest
      end
  end.

(** *** deleteRemovedResources *)

(** The first loop: the objects of the store that the bundle controls and
    that are not being deleted, by reference. *)
Fixpoint collectExisting (b : Bundle) (objs : list Unstructured)
         (existingObjs : gmap objectRef UID) : M (gmap objectRef UID) :=
  match objs with
  | [] => ret existingObjs
  | m :: rest =>
      if bool_decide (obj_DeletionTimestamp m <> None) then
        collectExisting b rest existingObjs
      else if negb (IsControlledBy m (bundle_UID b)) then
        logPrintf (LogObjectNotOwned (obj_GVK m) (obj_Name m) (bundle_UID b)
                                     (obj_OwnerReferences m)) ;;;
        collectExisting b rest existingObjs
      else collectExisting b rest (<[refOf m := obj_UID m]> existingObjs)
  end.

(** The second loop: forget the objects that the bundle still declares. *)
Definition removeDeclared (resources : list Resource) (existingObjs : gmap objectRef UID)
  : gmap objectRef UID :=
  foldl (fun m res => delete (refOf (res_Spec res)) m) existingObjs resources.

Definition deleteOptions (uid : UID) : DeleteOptions :=
  mkDeleteOptions (Some uid) (Some DeletePropagationForeground).

(** The third loop, over the objects to delete in the order of the range. *)
Fixpoint deleteObjects (b : Bundle) (targets : list (objectRef * UID))
         (firstErr : option error) (retriable : bool) : M (bool * option error) :=
  match targets with
  | [] => ret (retriable, firstErr)
  | (ref, uid) :: rest =>
      logPrintf (LogDeletingObject (oref_GroupVersionKind ref) (oref_Name ref)) ;;;
      c <- ForGVK (oref_GroupVersionKind ref) (bundle_Namespace b) ;;
      match c with
      | Err err =>
          match firstErr with
          | None => deleteObjects b rest (Some err) false
          | Some _ =>
              logPrintf (LogFailedToGetClient (oref_GroupVersionKind ref) err) ;;;
              deleteObjects b rest firstErr retriable
          end
      | Ok resClient =>
          r <- Delete resClient (oref_Name ref) (deleteOptions uid) ;;
          match r with
          | None => deleteObjects b rest firstErr retriable
          | Some err =>
              if negb (api_errors.IsNotFound err) && negb (api_errors.IsConflict err) then
                match firstErr with
                | None => deleteObjects b rest (Some err) retriable
                | Some _ =>
                    logPrintf (LogFailedToDelete (oref_GroupVersionKind ref)
                                                 (oref_Name ref) err) ;;;
                    deleteObjects b rest firstErr retriable
                end
              else deleteObjects b rest firstErr retriable
          end
      end
  end.

Definition deleteRemovedResources : M (bool * option error) :=
  b <- getBundle ;;
  l <- storeGetObjectsForBundle (bundle_Namespace b) (bundle_Name b) ;;
  match l with
  | Err err => ret (false, Some err)
  | Ok objs =>
      existingObjs <- collectExisting b objs ∅ ;;
      let existingObjs := removeDeclared (bundle_Resources b) existingObjs in
      deleteObjects b (rangeOrder env existingObjs) None true
  end.

Definition process : M (bool * option error) :=
  b <- getBundle ;;
  match buildResourceMap (bundle_Resources b) ∅ with
  | Err err => ret (false, Some err)
  | Ok resourceMap =>
      match sortBundle b with
      | Err sortErr => ret (false, Some sortErr)
      | Ok (g, sorted) =>
          setReadyResources ∅ ;;;
          r <- visitVertices g resourceMap sorted ;;
          match r with
          | Some (retriable, err) => ret (retriable, Some err)
          | None =>
              d <- deleteRemovedResources ;;
              match d with
              | (retriable, Some err) => ret (retriable, Some err)
              | (_, None) => ret (false, None)
              end
          end
      end
  end.

(** *** Status *)

Definition setBundleStatus : M (option error) :=
  b <- getBundle ;;
  r <- BundlesUpdate (bundle_Namespace b) b ;;
  match r with
  | Err err =>
      if api_errors.IsConflict err then ret None
      else ret (Some (errorString
                        ("failed to set bundle " +:+ bundle_Namespace b +:+ "/" +:+
                         bundle_Name b +:+ " status to " +:+
                         BundleStatus_ShortString env (bundle_Conditions b) +:+ ": " +:+
                         errors.Error err)))
  | Ok bundleUpdated =>
      logPrintf (LogSetBundleStatus (bundle_Conditions bundleUpdated)) ;;;
      ret None
  end.

Definition isBundleReady : M bool :=
  b <- getBundle ;;
  ready <- getReadyResources ;;
  ret (forallb (fun res => match ready !! res_Name res with
                           | Some _ => true
                           | None => false
                           end) (bundle_Resources b)).

Definition updateCondition (c : BundleCondition) : M bool :=
  b <- getBundle ;;
  let '(b', changed) := UpdateCondition b c in
  setBundle b' ;;;
  ret changed.

Definition isContextError (e : option error) : bool :=
  match e with
  | Some context_Canceled | Some context_DeadlineExceeded => true
  | _ => false
  end.

Definition isConflictCaused (e : option error) : bool :=
  match e with
  | Some err => api_errors.IsConflict (errors.Cause err)
  | None => false
  end.

(** The conditions that [handleProcessResult] folds the outcome into:
    in progress, ready and error, in this order. *)
Definition foldConditions (retriable : bool) (processErr : option error) (bundleReady : bool)
  : BundleCondition * BundleCondition * BundleCondition :=
  let inProgressCond := mkBundleCondition BundleInProgress ConditionFalse "" "" in
  let readyCond := mkBundleCondition BundleReady ConditionFalse "" "" in
  let errorCond := mkBundleCondition BundleError ConditionFalse "" "" in
  match processErr with
  | None =>
      if bundleReady
      then (inProgressCond, mkBundleCondition BundleReady ConditionTrue "" "", errorCond)
      else (mkBundleCondition BundleInProgress ConditionTrue "" "", readyCond, errorCond)
  | Some err =>
      if retriable
      then (mkBundleCondition BundleInProgress ConditionTrue "" "", readyCond,
            mkBundleCondition BundleError ConditionTrue BundleReasonRetriableError
                              (errors.Error err))
      else (inProgressCond, readyCond,
            mkBundleCondition BundleError ConditionTrue BundleReasonTerminalError
                              (errors.Error err))
  end.

Definition handleProcessResult (retriable : bool) (processErr : option error)
  : M (bool * option error) :=
  if isConflictCaused processErr then ret (retriable, processErr)
  else if isContextError processErr then ret (false, processErr)
  else
    bundleReady <- match processErr with
                   | None => isBundleReady
                   | Some _ => ret false
                   end ;;
    let '(inProgressCond, readyCond, errorCond) :=
      foldConditions retriable processErr bundleReady in
    inProgressUpdated <- updateCondition inProgressCond ;;
    readyUpdated <- updateCondition readyCond ;;
    errorUpdated <- updateCondition errorCond ;;
    if inProgressUpdated || readyUpdated || errorUpdated then
      ex <- setBundleStatus ;;
      match processErr with
      | None => ret (true, ex)
      | Some _ => ret (retriable, processErr)
      end
    else ret (retriable, processErr).

End SyncTask.

Arguments mkSyncTask {World} _ _ _ _ _.
Arguments st_bundle {World} _.
Arguments st_readyResources {World} _.
Arguments st_world {World} _.
Arguments st_trace {World} _.
Arguments st_log {World} _.

(** ** A small cluster to run the model on

    Collaborators that keep no state and answer from fixed tables. *)

Module Scenario.

Definition quote (s : string) : string := "'" +:+ s +:+ "'".

Definition tableEnv
           (forGVK : GroupVersionKind -> option error)
           (stored : list Unstructured)
           (create update : Unstructured -> result Unstructured)
           (del : string -> option error)
           (isReady : Unstructured -> bool * bool * option error)
           (bundlesUpdate : Bundle -> result Bundle) : Env unit :=
  {| BundleNameLabel := "bundleName";
     BundleResourceGroupVersion := "smith.atlassian.com/v1";
     BundleResourceKind := "Bundle";
     fmt_q := quote;
     fmt_v_OwnerReference := fun ref => ref_Kind ref +:+ "/" +:+ ref_Name ref;
     BundleStatus_ShortString := fun _ => "status";
     Resource_ToUnstructured := fun res => Ok (res_Spec res);
     Spec_ProcessObject := fun _ _ _ spec => Ok spec;
     SpecCheck_CompareActualVsSpec := fun spec actual =>
       Ok (SetOwnerReferences (SetLabels actual (obj_Labels spec))
                              (obj_OwnerReferences spec),
           bool_decide (obj_Labels spec = obj_Labels actual));
     SmartClient_ForGVK := fun gvk _ w => (forGVK gvk, w);
     Store_Get := fun gvk _ name w =>
       (Ok (List.find (fun o => bool_decide (refOf o = mkObjectRef gvk name)) stored), w);
     Store_GetObjectsForBundle := fun _ _ w => (Ok stored, w);
     Client_Create := fun _ obj w => (create obj, w);
     Client_Update := fun _ obj w => (update obj, w);
     Client_Delete := fun _ name _ w => (del name, w);
     ReadyChecker_IsReady := fun obj w => (isReady obj, w);
     Bundles_Update := fun _ b w => (bundlesUpdate b, w);
     rangeOrder := map_to_list;
     rangeOrder_visits_each_once := fun m => reflexivity (map_to_list m) |}.

Definition configMap : GroupVersionKind := mkGVK "" "v1" "ConfigMap".

Definition object (name : string) (uid : UID) (refs : list OwnerReference) : Unstructured :=
  mkUnstructured configMap name uid ∅ refs None [].

Definition bundleOf (resources : list Resource) (conds : list BundleCondition) : Bundle :=
  mkBundle "ns" "bundle" "uid-bundle" ∅ resources conds.

Definition controllerRef (uid : UID) : OwnerReference :=
  mkOwnerReference "smith.atlassian.com/v1" "Bundle" "bundle" uid (Some true) (Some true).

Definition start (b : Bundle) : syncTask :=
  mkSyncTask b ∅ tt [] [].

Definition serverError : error := StatusError StatusReasonInternalError "internal error".
Definition conflictError : error := StatusError StatusReasonConflict "conflict".

(** A cluster in which every call succeeds and every object is ready. *)
Definition calm (stored : list Unstructured) : Env unit :=
  tableEnv (fun _ => None) stored Ok Ok (fun _ => None)
           (fun _ => (true, false, None)) Ok.

Definition widget : GroupVersionKind := mkGVK "example.com" "v1" "Widget".

Definition noWidgets (gvk : GroupVersionKind) : option error :=
  if decide (gvk = widget) then Some (errorString "no client for widgets") else None.

(** A cluster that holds a widget and a config map of the bundle, has no
    client for widgets and refuses every delete. *)
Definition stubborn : Env unit :=
  tableEnv noWidgets
           [mkUnstructured widget "w" "uid-w" ∅ [controllerRef "uid-bundle"] None [];
            object "c" "uid-c" [controllerRef "uid-bundle"]]
           Ok Ok (fun _ => Some serverError) (fun _ => (true, false, None)) Ok.

End Scenario.

(** ** Vocabulary of the statements *)

(** The bundle after the three updates of [handleProcessResult], and
    whether one of them changed a condition. *)
Definition foldInto (b : Bundle) (cs : BundleCondition * BundleCondition * BundleCondition)
  : Bundle * bool :=
  let b1 := UpdateCondition b cs.1.1 in
  let b2 := UpdateCondition b1.1 cs.1.2 in
  let b3 := UpdateCondition b2.1 cs.2 in
  (b3.1, b1.2 || b2.2 || b3.2).

Definition conditionOf {World} (s : @syncTask World) (t : BundleConditionType)
  : option BundleCondition :=
  GetCondition (bundle_Conditions (st_bundle s)) t.

(** The three conditions of a task have the given statuses, the error
    condition with the given reason and message. *)
Definition conditionsAre {World} (s : @syncTask World)
           (inProgress ready err : ConditionStatus) (reason message : string) : Prop :=
  conditionOf s BundleInProgress = Some (mkBundleCondition BundleInProgress inProgress "" "") /\
  conditionOf s BundleReady = Some (mkBundleCondition BundleReady ready "" "") /\
  conditionOf s BundleError = Some (mkBundleCondition BundleError err reason message).

Definition conditionsChanged {World} (s s' : @syncTask World) : Prop :=
  exists t, conditionOf s' t <> conditionOf s t.

Definition allResourcesReady {World} (s : @syncTask World) : Prop :=
  forall res, res ∈ bundle_Resources (st_bundle s) ->
              is_Some (st_readyResources s !! res_Name res).

(** What [setBundleStatus] makes of the answer to the status write. *)
Definition statusWriteError {World} (env : Env World) (b : Bundle) (resp : result Bundle)
  : option error :=
  match resp with
  | Ok _ => None
  | Err err =>
      if api_errors.IsConflict err then None
      else Some (errorString
                   ("failed to set bundle " +:+ bundle_Namespace b +:+ "/" +:+
                    bundle_Name b +:+ " status to " +:+
                    BundleStatus_ShortString env (bundle_Conditions b) +:+ ": " +:+
                    errors.Error err))
  end.

(** One of the conditions [cs] is not the condition of its type that the
    bundle of the task holds. *)
Definition outdated {World} (s : @syncTask World)
           (cs : BundleCondition * BundleCondition * BundleCondition) : Prop :=
  exists c, c ∈ [cs.1.1; cs.1.2; cs.2] /\ conditionOf s (cond_Type c) <> Some c.

Definition noWrites (evs : list Event) : Prop := Forall (fun ev => isWrite ev = false) evs.

(** The references to the dependencies of a resource, one per entry of
    [res.DependsOn], each to the object observed for that dependency. *)
Definition dependencyReferencesOf (ready : gmap ResourceName Unstructured)
           (deps : list ResourceName) (refs : list OwnerReference) : Prop :=
  Forall2 (fun dep ref => exists obj, ready !! dep = Some obj /\
                                      ref = dependencyReference obj) deps refs.

(** What one turn of the deletion loop does for a target: it asks for the
    client and gives up, or it gets the client and issues the delete, with
    the UID of the target as precondition and foreground propagation. *)
Definition attempt (b : Bundle) (target : objectRef * UID) (evs : list Event) : Prop :=
  let gvk := oref_GroupVersionKind target.1 in
  (exists e, evs = [EvForGVK gvk (bundle_Namespace b) (Some e)]) \/
  (exists resp,
      evs = [EvForGVK gvk (bundle_Namespace b) None;
             EvDelete (mkResourceClient gvk (bundle_Namespace b)) (oref_Name target.1)
                      (mkDeleteOptions (Some target.2) (Some DeletePropagationForeground))
                      resp]).

(** The failure that a call of the deletion loop counts, if any: [true]
    marks a client that could not be acquired. *)
Definition failureOf (ev : Event) : option (bool * error) :=
  match ev with
  | EvForGVK _ _ (Some e) => Some (true, e)
  | EvDelete _ _ _ (Some e) =>
      if negb (api_errors.IsNotFound e) && negb (api_errors.IsConflict e)
      then Some (false, e) else None
  | _ => None
  end.

Definition failures (evs : list Event) : list (bool * error) := omap failureOf evs.

(** The line that the deletion loop logs for a failure that is not the first. *)
Definition failureLog (ev : Event) : option LogEntry :=
  match ev with
  | EvForGVK gvk _ (Some e) => Some (LogFailedToGetClient gvk e)
  | EvDelete c name _ (Some e) =>
      if negb (api_errors.IsNotFound e) && negb (api_errors.IsConflict e)
      then Some (LogFailedToDelete (client_GVK c) name e) else None
  | _ => None
  end.

Definition isFailureLog (l : LogEntry) : bool :=
  match l with
  | LogFailedToGetClient _ _ | LogFailedToDelete _ _ _ => true
  | _ => false
  end.

(** The object can be deleted on behalf of the bundle. *)
Definition deletable (b : Bundle) (m : Unstructured) : Prop :=
  obj_DeletionTimestamp m = None /\ IsControlledBy m (bundle_UID b) = true.

Definition declared (b : Bundle) (ref : objectRef) : Prop :=
  exists res, res ∈ bundle_Resources b /\ refOf (res_Spec res) = ref.

(** The map that the first loop of [deleteRemovedResources] builds. *)
Fixpoint existing (b : Bundle) (objs : list Unstructured) (acc : gmap objectRef UID)
  : gmap objectRef UID :=
  match objs with
  | [] => acc
  | m :: rest =>
      if bool_decide (obj_DeletionTimestamp m <> None) then existing b rest acc
      else if negb (IsControlledBy m (bundle_UID b)) then existing b rest acc
      else existing b rest (<[refOf m := obj_UID m]> acc)
  end.

Definition names (b : Bundle) : list ResourceName := res_Name <$> bundle_Resources b.

(** Resource [a] of the bundle lists [c] in its [dependsOn]. *)
Definition dependsOn (b : Bundle) (a c : ResourceName) : Prop :=
  exists res, res ∈ bundle_Resources b /\ res_Name res = a /\ c ∈ res_DependsOn res.

Definition hasDuplicateNames (b : Bundle) : Prop := ~ NoDup (names b).

Definition hasDanglingDependsOn (b : Bundle) : Prop :=
  exists a c, dependsOn b a c /\ c ∉ names b.

Definition hasCycle (b : Bundle) : Prop := exists a, tc (dependsOn b) a a.

(** The ready checker said during the calls [evs] that [obj] is ready. *)
Definition checkedReady (evs : list Event) (obj : Unstructured) : Prop :=
  exists retriable, EvIsReady obj (true, retriable, None) ∈ evs.

(** Between [s] and [s'], the specification of [res] was evaluated,
    [createOrUpdate] handed out [obj] for it, and the ready checker, asked
    next and about that very object, called it ready. *)
Definition appliedAndReady {World} (env : Env World) (res : Resource)
           (s s' : @syncTask World) (obj : Unstructured) : Prop :=
  exists spec s0 s1 flag pre post,
    st_bundle s0 = st_bundle s /\
    st_trace s0 = st_trace s ++ pre /\
    evalSpec env res s0 = Some (Ok spec, s0) /\
    createOrUpdate env spec s0 = Some (Applied obj, s1) /\
    st_trace s' = st_trace s1 ++ EvIsReady obj (true, flag, None) :: post.

(** A vertex can be visited: it is in the graph, and its edges cover the
    dependencies of the resource it stands for. *)
Definition visitable (g : graph.Graph) (resourceMap : gmap ResourceName Resource)
           (v : graph.V) : Prop :=
  exists vx, graph.Vertices g !! v = Some vx /\
             forall d, d ∈ res_DependsOn (default zeroResource (resourceMap !! v)) ->
                       d ∈ graph.Edges vx.

Module graph_order.

Import graph.

Definition edge (g : Graph) (v d : V) : Prop := d ∈ edgesOf g v.

(** [g'] has the vertices of [g], in the same order, and at least its edges. *)
Definition extends (g g' : Graph) : Prop :=
orderedVertices g' = orderedVertices g /\
(forall v, is_Some (Vertices g' !! v) <-> is_Some (Vertices g !! v)) /\
(forall v d, edge g v d -> edge g' v d).

(** Every edge target of a sorted vertex comes before it. *)
Definition dependenciesFirst (g : Graph) (sorted : list V) : Prop :=
forall i v d, sorted !! i = Some v -> edge g v d ->
              exists j, j < i /\ sorted !! j = Some d.

End graph_order.

(** *** The calls of a pass *)

(** The namespace that a call names, if it names one. *)
Definition eventNamespace (ev : Event) : option string :=
  match ev with
  | EvForGVK _ namespace _ => Some namespace
  | EvStoreGet _ namespace _ _ => Some namespace
  | EvStoreGetObjectsForBundle namespace _ _ => Some namespace
  | EvCreate c _ _ | EvUpdate c _ _ | EvDelete c _ _ _ => Some (client_Namespace c)
  | EvIsReady _ _ => None
  | EvBundlesUpdate namespace _ _ => Some namespace
  end.

(** The calls that [checkResource] makes to bring a resource up. *)
Definition appliesResource (ev : Event) : bool :=
  match ev with
  | EvForGVK _ _ _ | EvStoreGet _ _ _ _ | EvCreate _ _ _ | EvUpdate _ _ _
  | EvIsReady _ _ => true
  | _ => false
  end.

(** The calls that the deletion loop makes. *)
Definition deletes (ev : Event) : bool :=
  match ev with
  | EvForGVK _ _ _ | EvDelete _ _ _ _ => true
  | _ => false
  end.

(** A call of [checkResource], in the given namespace. *)
Definition applyCall (namespace : string) (ev : Event) : Prop :=
  appliesResource ev = true /\
  forall n, eventNamespace ev = Some n -> n = namespace.

(** A call of the deletion loop, in the given namespace. *)
Definition deletionCall (namespace : string) (ev : Event) : Prop :=
  deletes ev = true /\
  forall n, eventNamespace ev = Some n -> n = namespace.

(** ** The application (package [app]): watches on third party resources *)

Module app.

(** A Go string as the sequence of its bytes, for the code that indexes
    and slices it. *)
Definition bytes (s : string) : list ascii := list_ascii_of_string s.

(** [strings.IndexByte]: the index of the first byte [c] of [s], or -1. *)
Fixpoint IndexByte (s : list ascii) (c : ascii) : Z :=
  match s with
  | [] => (-1)%Z
  | b :: rest =>
      if decide (b = c) then 0%Z
      else let i := IndexByte rest c in
           if decide (i = (-1)%Z) then (-1)%Z else (i + 1)%Z
  end.

(** [strings.Replace(s, old, new, -1)] for an [old] of one byte: every
    occurrence of the byte is replaced. *)
Fixpoint Replace (s : list ascii) (old : ascii) (new : list ascii) : list ascii :=
  match s with
  | [] => []
  | b :: rest =>
      if decide (b = old) then new ++ Replace rest old new
      else b :: Replace rest old new
  end.

(** What a call ends with: a result, or a panic, either the one that the
    code raises or the one of the runtime for an index out of range. *)
Inductive panicValue : Type :=
| invalidResourceName (name : list ascii)
| indexOutOfRange.

Inductive outcome (A : Type) : Type :=
| Returns (a : A)
| Panics (p : panicValue).
Arguments Returns {A} a.
Arguments Panics {A} p.

(** [splitTprName] splits the name of a third party resource into the
    path of the resource and the name of the group. *)
Definition splitTprName (name : list ascii) : outcome (list ascii * list ascii) :=
  let pos := IndexByte name "."%char in
  if decide (pos = (-1)%Z \/ pos = 0%Z) then Panics (invalidResourceName name)
  else
    let resourcePath := Replace (take (Z.to_nat pos) name) "-"%char [] in
    match last resourcePath with
    | None => Panics indexOutOfRange
    | Some b =>
        let resourcePath :=
          if decide (b = "s"%char) then resourcePath ++ bytes "es"
          else if decide (b = "y"%char)
               then take (length resourcePath - 1) resourcePath ++ bytes "ies"
               else resourcePath ++ bytes "s" in
        Returns (resourcePath, drop (Z.to_nat (pos + 1)) name)
    end.





Section Watches.

(** The constant [smith.AllNamespaces], which the sources at hand do not define. *)
Variable AllNamespaces : list ascii.



End Watches.


End app.

(** ** Conditions *)

Lemma GetCondition_replaceCondition_same conds c :
  GetCondition (replaceCondition conds c) (cond_Type c) = Some c.
Proof.
  induction conds as [|c0 rest IH]; simpl.
  - by rewrite decide_True.
  - destruct (decide (cond_Type c0 = cond_Type c)) as [Heq|Hne]; simpl.
    + by rewrite decide_True.
    + by rewrite decide_False.
Qed.

Lemma GetCondition_replaceCondition_other conds c t :
  t <> cond_Type c ->
  GetCondition (replaceCondition conds c) t = GetCondition conds t.
Proof.
  intros Hne. induction conds as [|c0 rest IH]; simpl.
  - by rewrite decide_False.
  - destruct (decide (cond_Type c0 = cond_Type c)) as [Heq|Hne']; simpl.
    + rewrite !decide_False; congruence.
    + by rewrite IH.
Qed.

Lemma GetCondition_app conds c t :
  GetCondition (conds ++ [c]) t =
  match GetCondition conds t with
  | Some c0 => Some c0
  | None => if decide (cond_Type c = t) then Some c else None
  end.
Proof.
  induction conds as [|c0 rest IH]; simpl; [done|].
  by destruct (decide (cond_Type c0 = t)).
Qed.

Lemma UpdateCondition_same b c :
  GetCondition (bundle_Conditions (UpdateCondition b c).1) (cond_Type c) = Some c.
Proof.
  unfold UpdateCondition.
  destruct (GetCondition (bundle_Conditions b) (cond_Type c)) as [old|] eqn:Hget; simpl.
  - apply GetCondition_replaceCondition_same.
  - rewrite GetCondition_app, Hget. by rewrite decide_True.
Qed.

Lemma UpdateCondition_other b c t :
  t <> cond_Type c ->
  GetCondition (bundle_Conditions (UpdateCondition b c).1) t =
  GetCondition (bundle_Conditions b) t.
Proof.
  intros Hne. unfold UpdateCondition.
  destruct (GetCondition (bundle_Conditions b) (cond_Type c)) as [old|] eqn:Hget; simpl.
  - by apply GetCondition_replaceCondition_other.
  - rewrite GetCondition_app. destruct (GetCondition (bundle_Conditions b) t); [done|].
    by rewrite decide_False.
Qed.

Lemma UpdateCondition_changed b c :
  (UpdateCondition b c).2 = true <->
  GetCondition (bundle_Conditions b) (cond_Type c) <> Some c.
Proof.
  unfold UpdateCondition.
  destruct (GetCondition (bundle_Conditions b) (cond_Type c)) as [old|]; simpl.
  - rewrite negb_true_iff, bool_decide_eq_false. split; congruence.
  - split; [congruence|done].
Qed.

Lemma UpdateCondition_frame b c :
  let b' := (UpdateCondition b c).1 in
  bundle_Namespace b' = bundle_Namespace b /\ bundle_Name b' = bundle_Name b /\
  bundle_UID b' = bundle_UID b /\ bundle_Resources b' = bundle_Resources b.
Proof. unfold UpdateCondition. by destruct (GetCondition _ _). Qed.

Lemma foldConditions_types retriable processErr bundleReady :
  let cs := foldConditions retriable processErr bundleReady in
  cond_Type cs.1.1 = BundleInProgress /\ cond_Type cs.1.2 = BundleReady /\
  cond_Type cs.2 = BundleError.
Proof. unfold foldConditions. by destruct processErr, retriable, bundleReady. Qed.

Section FoldInto.

Variables (b : Bundle) (c1 c2 c3 : BundleCondition).
Hypothesis type1 : cond_Type c1 = BundleInProgress.
Hypothesis type2 : cond_Type c2 = BundleReady.
Hypothesis type3 : cond_Type c3 = BundleError.

Lemma foldInto_conditions :
  let b' := (foldInto b (c1, c2, c3)).1 in
  GetCondition (bundle_Conditions b') BundleInProgress = Some c1 /\
  GetCondition (bundle_Conditions b') BundleReady = Some c2 /\
  GetCondition (bundle_Conditions b') BundleError = Some c3.
Proof.
  unfold foldInto; simpl. repeat split.
  - rewrite !UpdateCondition_other by congruence.
    rewrite <- type1. apply UpdateCondition_same.
  - rewrite UpdateCondition_other by congruence.
    rewrite <- type2. apply UpdateCondition_same.
  - rewrite <- type3. apply UpdateCondition_same.
Qed.

Lemma foldInto_changed :
  (foldInto b (c1, c2, c3)).2 = true <->
  exists t, GetCondition (bundle_Conditions (foldInto b (c1, c2, c3)).1) t <>
            GetCondition (bundle_Conditions b) t.
Proof.
  destruct foldInto_conditions as (H1 & H2 & H3).
  unfold foldInto in *; simpl in *.
  rewrite !orb_true_iff, !UpdateCondition_changed.
  rewrite UpdateCondition_other by congruence.
  rewrite !(UpdateCondition_other _ _ (cond_Type c3)) by congruence.
  split.
  - intros [[H|H]|H].
    + exists BundleInProgress. rewrite H1. rewrite type1 in H. congruence.
    + exists BundleReady. rewrite H2. rewrite type2 in H. congruence.
    + exists BundleError. rewrite H3. rewrite type3 in H. congruence.
  - intros [t Ht]. destruct t.
    + left; left. rewrite type1. congruence.
    + left; right. rewrite type2. congruence.
    + right. rewrite type3. congruence.
Qed.

Lemma foldInto_frame :
  let b' := (foldInto b (c1, c2, c3)).1 in
  bundle_Namespace b' = bundle_Namespace b /\ bundle_Name b' = bundle_Name b /\
  bundle_UID b' = bundle_UID b /\ bundle_Resources b' = bundle_Resources b.
Proof.
  unfold foldInto; simpl.
  destruct (UpdateCondition_frame b c1) as (?&?&?&?).
  destruct (UpdateCondition_frame (UpdateCondition b c1).1 c2) as (?&?&?&?).
  destruct (UpdateCondition_frame (UpdateCondition (UpdateCondition b c1).1 c2).1 c3)
    as (?&?&?&?).
  repeat split; congruence.
Qed.

End FoldInto.

Lemma foldInto_outdated (b : Bundle) (c1 c2 c3 : BundleCondition) :
  cond_Type c1 = BundleInProgress ->
  cond_Type c2 = BundleReady ->
  cond_Type c3 = BundleError ->
  (foldInto b (c1, c2, c3)).2 = true <->
  exists c, c ∈ [c1; c2; c3] /\ GetCondition (bundle_Conditions b) (cond_Type c) <> Some c.
Proof.
  intros T1 T2 T3.
  rewrite (foldInto_changed b c1 c2 c3 T1 T2 T3).
  destruct (foldInto_conditions b c1 c2 c3 T1 T2 T3) as (H1 & H2 & H3).
  split.
  - intros [t Ht]. destruct t.
    + exists c1. split; [by left|]. rewrite T1. congruence.
    + exists c2. split; [right; by left|]. rewrite T2. congruence.
    + exists c3. split; [right; right; by left|]. rewrite T3. congruence.
  - intros (c & Hin & Hc).
    apply elem_of_cons in Hin as [->|Hin]; [|apply elem_of_cons in Hin as [->|Hin]].
    + exists BundleInProgress. rewrite T1 in Hc. congruence.
    + exists BundleReady. rewrite T2 in Hc. congruence.
    + apply list_elem_of_singleton in Hin as ->.
      exists BundleError. rewrite T3 in Hc. congruence.
Qed.

(** ** Status folding *)

Section StatusFolding.

Context {World : Type}.
Variable env : Env World.

Lemma isBundleReady_run (s : @syncTask World) :
  exists ready, isBundleReady s = Some (ready, s) /\
                (ready = true <-> allResourcesReady s).
Proof.
  eexists; split; [reflexivity|].
  unfold allResourcesReady. rewrite forallb_forall. split.
  - intros H res Hin. apply list_elem_of_In, H in Hin.
    by destruct (st_readyResources s !! res_Name res).
  - intros H res Hin. apply list_elem_of_In, H in Hin. by destruct Hin as [? ->].
Qed.

Lemma updateCondition_run c (s : @syncTask World) :
  updateCondition c s =
  Some ((UpdateCondition (st_bundle s) c).2,
        mkSyncTask (UpdateCondition (st_bundle s) c).1 (st_readyResources s)
                   (st_world s) (st_trace s) (st_log s)).
Proof.
  unfold updateCondition, bind, getBundle, setBundle, ret.
  by destruct (UpdateCondition (st_bundle s) c).
Qed.

Lemma setBundleStatus_run (s : @syncTask World) :
  exists resp s',
    setBundleStatus env s = Some (statusWriteError env (st_bundle s) resp, s') /\
    resp = (Bundles_Update env (bundle_Namespace (st_bundle s)) (st_bundle s)
                           (st_world s)).1 /\
    st_bundle s' = st_bundle s /\
    st_readyResources s' = st_readyResources s /\
    st_trace s' = st_trace s ++
                  [EvBundlesUpdate (bundle_Namespace (st_bundle s)) (st_bundle s) resp].
Proof.
  unfold setBundleStatus, bind, getBundle, BundlesUpdate, invoke, logPrintf, ret.
  destruct (Bundles_Update env _ _ _) as [[bu|err] w] eqn:Hresp; simpl.
  - eexists (Ok bu), _. split; [reflexivity|]. done.
  - destruct (api_errors.IsConflict err) eqn:Hc;
      (eexists (Err err), _; simpl; rewrite Hc; split; [reflexivity|]); done.
Qed.

(** The ordinary path of [handleProcessResult]: the conditions are folded
    into the bundle, and the status is written when one of them changed. *)
Lemma handleProcessResult_run retriable processErr (s : @syncTask World) :
  isConflictCaused processErr = false ->
  isContextError processErr = false ->
  exists bundleReady r s',
    handleProcessResult env retriable processErr s = Some (r, s') /\
    (processErr = None -> (bundleReady = true <-> allResourcesReady s)) /\
    let folded := foldInto (st_bundle s)
                           (foldConditions retriable processErr bundleReady) in
    st_bundle s' = folded.1 /\
    st_readyResources s' = st_readyResources s /\
    if folded.2 then
      exists resp,
        resp = (Bundles_Update env (bundle_Namespace folded.1) folded.1 (st_world s)).1 /\
        st_trace s' = st_trace s ++
                      [EvBundlesUpdate (bundle_Namespace folded.1) folded.1 resp] /\
        r = match processErr with
            | None => (true, statusWriteError env folded.1 resp)
            | Some _ => (retriable, processErr)
            end
    else s' = mkSyncTask folded.1 (st_readyResources s) (st_world s)
                         (st_trace s) (st_log s) /\
         r = (retriable, processErr).
Proof.
  intros Hconflict Hcontext.
  destruct (isBundleReady_run s) as (ready & Hready & Hiff).
  set (bundleReady := match processErr with None => ready | Some _ => false end).
  exists bundleReady.
  unfold handleProcessResult. rewrite Hconflict, Hcontext.
  unfold bind at 1.
  assert (match processErr with None => isBundleReady | Some _ => ret false end s
          = Some (bundleReady, s)) as -> by (subst bundleReady; by destruct processErr).
  destruct (foldConditions retriable processErr bundleReady) as [[c1 c2] c3] eqn:Hfold.
  unfold foldInto; simpl.
  unfold bind at 1. rewrite updateCondition_run.
  unfold bind at 1. rewrite updateCondition_run. simpl.
  unfold bind at 1. rewrite updateCondition_run. simpl.
  set (b1 := UpdateCondition (st_bundle s) c1).
  set (b2 := UpdateCondition b1.1 c2).
  set (b3 := UpdateCondition b2.1 c3).
  destruct (b1.2 || b2.2 || b3.2) eqn:Hchanged.
  - set (s3 := mkSyncTask b3.1 (st_readyResources s) (st_world s) (st_trace s) (st_log s)).
    destruct (setBundleStatus_run s3) as (resp & s' & Hrun & Hresp & Hb & Hr & Ht).
    unfold bind at 1. rewrite Hrun. simpl in *.
    destruct processErr as [err|]; eexists _, _; (split; [reflexivity|]);
      (split; [subst bundleReady; intros; try done|]);
      (split; [done|]); (split; [done|]); exists resp; done.
  - eexists _, _. split; [reflexivity|].
    split; [subst bundleReady; by destruct processErr|]. done.
Qed.

End StatusFolding.

(** C1 (as amended).  For an outcome that is neither a conflict-caused error
    nor a context cancellation or deadline, [handleProcessResult] returns
    and leaves the three conditions of the bundle as the table says: no
    error and every resource ready gives InProgress=False, Ready=True,
    Error=False; no error and a resource not ready gives InProgress=True,
    Ready=False, Error=False; a retriable error gives InProgress=True,
    Ready=False, Error=True with reason RetriableError; a terminal error
    gives InProgress=False, Ready=False, Error=True with reason
    TerminalError; the message of the error condition is the text of the
    error. *)
Theorem handleProcessResult_folds_outcome {World} (env : Env World)
        (retriable : bool) (processErr : option error) (s : @syncTask World) :
  isConflictCaused processErr = false ->
  isContextError processErr = false ->
  exists r s',
    handleProcessResult env retriable processErr s = Some (r, s') /\
    (processErr = None -> allResourcesReady s ->
     conditionsAre s' ConditionFalse ConditionTrue ConditionFalse "" "") /\
    (processErr = None -> ~ allResourcesReady s ->
     conditionsAre s' ConditionTrue ConditionFalse ConditionFalse "" "") /\
    (forall err, processErr = Some err -> retriable = true ->
     conditionsAre s' ConditionTrue ConditionFalse ConditionTrue
                   BundleReasonRetriableError (errors.Error err)) /\
    (forall err, processErr = Some err -> retriable = false ->
     conditionsAre s' ConditionFalse ConditionFalse ConditionTrue
                   BundleReasonTerminalError (errors.Error err)).
Proof.
  intros Hconflict Hcontext.
  destruct (handleProcessResult_run env retriable processErr s Hconflict Hcontext)
    as (bundleReady & r & s' & Hrun & Hready & Hbundle & _).
  exists r, s'. split; [done|].
  pose proof (foldConditions_types retriable processErr bundleReady) as (T1 & T2 & T3).
  destruct (foldConditions retriable processErr bundleReady) as [[c1 c2] c3] eqn:Hfold.
  pose proof (foldInto_conditions (st_bundle s) c1 c2 c3 T1 T2 T3) as Hconds.
  simpl in Hconds. unfold conditionsAre, conditionOf. rewrite Hbundle.
  unfold foldConditions in Hfold.
  destruct processErr as [err|].
  - destruct retriable; injection Hfold as <- <- <-;
      (split; [done|]); (split; [done|]);
      split; intros err' [= <-] Hflag; try done; exact Hconds.
  - destruct (Hready eq_refl) as [Hthen Hback].
    destruct bundleReady; injection Hfold as <- <- <-.
    + split; [intros _ _; exact Hconds|].
      split; [intros _ Hnot; destruct Hnot; by apply Hthen|].
      split; intros err' Herr; discriminate Herr.
    + split; [intros _ Hall; apply Hback in Hall; discriminate Hall|].
      split; [intros _ _; exact Hconds|].
      split; intros err' Herr; discriminate Herr.
Qed.

Lemma handleProcessResult_folds_outcome_witness :
  exists r s',
    handleProcessResult (Scenario.calm []) true (Some Scenario.serverError)
                        (Scenario.start (Scenario.bundleOf [] [])) = Some (r, s') /\
    conditionsAre s' ConditionTrue ConditionFalse ConditionTrue
                  BundleReasonRetriableError "internal error".
Proof.
  destruct (handleProcessResult_folds_outcome
              (Scenario.calm []) true (Some Scenario.serverError)
              (Scenario.start (Scenario.bundleOf [] [])) eq_refl eq_refl)
    as (r & s' & Hrun & _ & _ & Hretriable & _).
  exists r, s'. split; [exact Hrun|].
  exact (Hretriable Scenario.serverError eq_refl eq_refl).
Defined.

(** C1 as stated fails for a conflict: the error that [createResource]
    returns when the object exists already arrives with [retriable = false],
    and no condition is set for it. *)
Lemma handleProcessResult_folds_outcome_counterexample :
  let err := errors.Wrapf Scenario.conflictError "object found, but not in Store yet" in
  ~ exists r s',
      handleProcessResult (Scenario.calm []) false (Some err)
                          (Scenario.start (Scenario.bundleOf [] [])) = Some (r, s') /\
      conditionsAre s' ConditionFalse ConditionFalse ConditionTrue
                    BundleReasonTerminalError (errors.Error err).
Proof.
  intros err (r & s' & Hrun & _ & _ & Herror).
  vm_compute in Hrun. injection Hrun as <- <-. vm_compute in Herror. discriminate.
Qed.

(** C4.  A process error whose cause is a write conflict comes back as it
    is, with the flag that was passed in; a context cancellation or
    deadline comes back with [retriable = false].  In both cases the task
    is left as it was: no condition is updated and nothing is written, so a
    conflict never produces an error condition with reason TerminalError. *)
Theorem handleProcessResult_special_cases {World} (env : Env World)
        (retriable : bool) (err : error) (s : @syncTask World) :
  (api_errors.IsConflict (errors.Cause err) = true ->
   handleProcessResult env retriable (Some err) s = Some ((retriable, Some err), s)) /\
  (err = context_Canceled \/ err = context_DeadlineExceeded ->
   handleProcessResult env retriable (Some err) s = Some ((false, Some err), s)).
Proof.
  split.
  - intros Hconflict. unfold handleProcessResult. simpl. by rewrite Hconflict.
  - by intros [-> | ->].
Qed.

Lemma handleProcessResult_special_cases_witness :
  handleProcessResult (Scenario.calm []) true (Some Scenario.conflictError)
                      (Scenario.start (Scenario.bundleOf [] []))
  = Some ((true, Some Scenario.conflictError), Scenario.start (Scenario.bundleOf [] [])) /\
  handleProcessResult (Scenario.calm []) true (Some context_Canceled)
                      (Scenario.start (Scenario.bundleOf [] []))
  = Some ((false, Some context_Canceled), Scenario.start (Scenario.bundleOf [] [])).
Proof.
  split.
  - apply (handleProcessResult_special_cases (Scenario.calm []) true Scenario.conflictError).
    reflexivity.
  - apply (handleProcessResult_special_cases (Scenario.calm []) true context_Canceled).
    left; reflexivity.
Defined.

(** C9.  [setBundleStatus] writes the bundle once; it returns nil when the
    write succeeds or is answered with a conflict, and otherwise the error
    of the write under the text of line 319.  [handleProcessResult] writes
    the status at most once, and only when one of the three conditions
    changed its effective value.  Outside the two guards, when one of the
    folded conditions is not what the bundle holds it does write; with a
    nil process error the pass then ends with [retriable = true] and the
    error that [setBundleStatus] makes of the answer: nil for a conflict,
    the error of the write otherwise.  With a process error, that error
    and the flag passed in are returned. *)
Theorem status_written_only_on_change {World} (env : Env World)
        (retriable : bool) (processErr : option error) (s : @syncTask World) :
  (exists resp s1,
      resp = (Bundles_Update env (bundle_Namespace (st_bundle s)) (st_bundle s)
                             (st_world s)).1 /\
      setBundleStatus env s =
      Some (match resp with
            | Ok _ => None
            | Err err =>
                if api_errors.IsConflict err then None
                else Some (errorString
                             ("failed to set bundle " +:+ bundle_Namespace (st_bundle s) +:+
                              "/" +:+ bundle_Name (st_bundle s) +:+ " status to " +:+
                              BundleStatus_ShortString env (bundle_Conditions (st_bundle s))
                              +:+ ": " +:+ errors.Error err))
            end, s1) /\
      st_trace s1 = st_trace s ++
                    [EvBundlesUpdate (bundle_Namespace (st_bundle s)) (st_bundle s) resp]) /\
  exists bundleReady r s' written,
    handleProcessResult env retriable processErr s = Some (r, s') /\
    st_trace s' = st_trace s ++ written /\
    (processErr = None -> (bundleReady = true <-> allResourcesReady s)) /\
    (written = [] \/
     exists resp, written = [EvBundlesUpdate (bundle_Namespace (st_bundle s'))
                                             (st_bundle s') resp]) /\
    (written <> [] ->
     conditionsChanged s s' /\
     outdated s (foldConditions retriable processErr bundleReady)) /\
    (isConflictCaused processErr = false ->
     isContextError processErr = false ->
     outdated s (foldConditions retriable processErr bundleReady) ->
     exists resp,
       resp = (Bundles_Update env (bundle_Namespace (st_bundle s')) (st_bundle s')
                              (st_world s)).1 /\
       written = [EvBundlesUpdate (bundle_Namespace (st_bundle s')) (st_bundle s') resp] /\
       r = match processErr with
           | Some _ => (retriable, processErr)
           | None =>
               (true,
                match resp with
                | Ok _ => None
                | Err err =>
                    if api_errors.IsConflict err then None
                    else Some (errorString
                                 ("failed to set bundle " +:+
                                  bundle_Namespace (st_bundle s') +:+ "/" +:+
                                  bundle_Name (st_bundle s') +:+ " status to " +:+
                                  BundleStatus_ShortString
                                    env (bundle_Conditions (st_bundle s'))
                                  +:+ ": " +:+ errors.Error err))
                end)
           end).
Proof.
  split.
  - destruct (setBundleStatus_run env s) as (resp & s1 & Hrun & Hresp & _ & _ & Htrace).
    exists resp, s1. split; [done|]. split; [|done]. rewrite Hrun. reflexivity.
  - destruct (isConflictCaused processErr) eqn:Hconflict.
    { exists true, (retriable, processErr), s, []. unfold handleProcessResult.
      rewrite Hconflict, app_nil_r. split; [done|]. split; [done|].
      split; [by intros ->|]. split; [by left|]. by split. }
    destruct (isContextError processErr) eqn:Hcontext.
    { exists true, (false, processErr), s, []. unfold handleProcessResult.
      rewrite Hconflict, Hcontext, app_nil_r. split; [done|]. split; [done|].
      split; [by intros ->|]. split; [by left|]. by split. }
    destruct (handleProcessResult_run env retriable processErr s Hconflict Hcontext)
      as (bundleReady & r & s' & Hrun & Hready & Hbundle & _ & Hwrite).
    pose proof (foldConditions_types retriable processErr bundleReady) as (T1 & T2 & T3).
    destruct (foldConditions retriable processErr bundleReady) as [[c1 c2] c3] eqn:Hfold.
    pose proof (foldInto_changed (st_bundle s) c1 c2 c3 T1 T2 T3) as Hchanged.
    pose proof (foldInto_outdated (st_bundle s) c1 c2 c3 T1 T2 T3) as Houtdated.
    destruct (foldInto (st_bundle s) (c1, c2, c3)) as [b' changed]; simpl in *.
    destruct changed.
    + destruct Hwrite as (resp & Hresp & Htrace & Hr).
      exists bundleReady, r, s', [EvBundlesUpdate (bundle_Namespace b') b' resp].
      rewrite Hbundle, Hfold. unfold outdated, conditionOf. simpl.
      do 3 (split; [done|]).
      split; [right; by exists resp|]. split.
      * intros _. split.
        -- unfold conditionsChanged, conditionOf. rewrite Hbundle. by apply Hchanged.
        -- by apply Houtdated.
      * intros _ _ _. exists resp. do 2 (split; [done|]). rewrite Hr.
        destruct processErr; [done|]. by destruct resp.
    + destruct Hwrite as [-> ->].
      exists bundleReady, (retriable, processErr),
             (mkSyncTask b' (st_readyResources s) (st_world s) (st_trace s) (st_log s)), [].
      rewrite Hfold. unfold outdated, conditionOf. simpl.
      rewrite app_nil_r. do 3 (split; [done|]). split; [by left|].
      split; [done|]. intros _ _ Hstale. apply Houtdated in Hstale. done.
Qed.

Lemma status_written_only_on_change_witness :
  exists s',
    handleProcessResult
      (Scenario.tableEnv (fun _ => None) [] Ok Ok (fun _ => None)
                         (fun _ => (true, false, None))
                         (fun _ => Err Scenario.serverError))
      false None (Scenario.start (Scenario.bundleOf [] []))
    = Some ((true,
             Some (errorString
                     "failed to set bundle ns/bundle status to status: internal error")),
            s').
Proof.
  destruct (proj2 (status_written_only_on_change
                     (Scenario.tableEnv (fun _ => None) [] Ok Ok (fun _ => None)
                                        (fun _ => (true, false, None))
                                        (fun _ => Err Scenario.serverError))
                     false None (Scenario.start (Scenario.bundleOf [] []))))
    as (bundleReady & r & s' & written & Hrun & _ & _ & _ & _ & Hwrite).
  destruct (Hwrite eq_refl eq_refl) as (resp & Hresp & _ & Hr).
  { destruct bundleReady; eexists; (split; [by left|]); discriminate. }
  simpl in Hresp. subst resp. simpl in Hr.
  pose proof Hrun as Hvalue. vm_compute in Hvalue. injection Hvalue as _ Hs'.
  exists s'. rewrite Hrun, Hr, <- Hs'. reflexivity.
Defined.



(** ** Create or update *)

(** Case analysis on the answer of the collaborator that the goal calls next. *)
Ltac answer :=
  match goal with
  | |- context [SmartClient_ForGVK ?e ?a ?b ?w] =>
      destruct (SmartClient_ForGVK e a b w) as [[?|] ?] eqn:?
  | |- context [Store_Get ?e ?a ?b ?c ?w] =>
      destruct (Store_Get e a b c w) as [[[?|]|?] ?] eqn:?
  | |- context [Client_Create ?e ?a ?b ?w] =>
      destruct (Client_Create e a b w) as [[?|?] ?] eqn:?
  | |- context [Client_Update ?e ?a ?b ?w] =>
      destruct (Client_Update e a b w) as [[?|?] ?] eqn:?
  | |- context [Client_Delete ?e ?a ?b ?c ?w] =>
      destruct (Client_Delete e a b c w) as [[?|] ?] eqn:?
  | |- context [ReadyChecker_IsReady ?e ?a ?w] =>
      destruct (ReadyChecker_IsReady e a w) as [[[? ?] [?|]] ?] eqn:?
  | |- context [SpecCheck_CompareActualVsSpec ?e ?a ?b] =>
      destruct (SpecCheck_CompareActualVsSpec e a b) as [[? [|]]|?] eqn:?
  end; simpl.

Ltac branch :=
  match goal with
  | |- context [if ?b then _ else _] =>
      lazymatch type of b with bool => destruct b eqn:? end
  end; simpl.

(** Unfold the calls of [createOrUpdate] down to the collaborators. *)
Ltac run_createOrUpdate :=
  cbv beta iota zeta delta
      [createOrUpdate createResource updateResource Create Update
       bind getBundle ForGVK storeGet invoke ret logPrintf];
  repeat (first [answer | branch]).


Lemma IsConflict_Cause e :
  api_errors.IsConflict e = true -> api_errors.IsConflict (errors.Cause e) = true.
Proof. by destruct e. Qed.

(** [createOrUpdate] always returns; it leaves the bundle and the ready
    resources alone and only adds to the trace. *)
Lemma createOrUpdate_frame {World} (env : Env World) spec (s : @syncTask World) :
  exists a s' evs,
    createOrUpdate env spec s = Some (a, s') /\
    st_trace s' = st_trace s ++ evs /\
    st_bundle s' = st_bundle s /\
    st_readyResources s' = st_readyResources s.
Proof.
  run_createOrUpdate;
    (eexists _, _, _; split; [reflexivity|];
     split; [simpl; rewrite <- ?app_assoc; reflexivity|]); done.
Qed.

(** C5.  How [createOrUpdate] classifies failures, once the client is
    acquired and the store has answered.  When the store holds no object
    the specification is created: a create answered with AlreadyExists
    gives [retriable = false] and the conflict built from that answer,
    wrapped; a create that fails otherwise gives [retriable = true] and the
    error itself.  An object found in the store that carries a deletion
    timestamp, or that the bundle does not control, gives
    [retriable = false] and nothing is written.  Otherwise an object that
    differs is updated: an update answered with a conflict gives
    [retriable = false] and that conflict, wrapped; an update that fails
    otherwise gives [retriable = true] and the error itself. *)
Theorem createOrUpdate_classifies_errors {World} (env : Env World)
        (spec : Unstructured) (s : @syncTask World) (w1 w2 : World)
        (found : option Unstructured) :
  SmartClient_ForGVK env (obj_GVK spec) (bundle_Namespace (st_bundle s)) (st_world s)
  = (None, w1) ->
  Store_Get env (obj_GVK spec) (bundle_Namespace (st_bundle s)) (obj_Name spec) w1
  = (Ok found, w2) ->
  exists a s' evs,
    createOrUpdate env spec s = Some (a, s') /\
    st_trace s' = st_trace s ++ evs /\
    let c := mkResourceClient (obj_GVK spec) (bundle_Namespace (st_bundle s)) in
    (forall err w3,
        found = None ->
        Client_Create env c spec w2 = (Err err, w3) ->
        last evs = Some (EvCreate c spec (Err err)) /\
        if api_errors.IsAlreadyExists err
        then exists msg,
            a = NotApplied false
                           (errors.Wrapf
                              (NewConflict env (gvk_Group (obj_GVK spec))
                                           (gvk_Kind (obj_GVK spec)) (obj_Name spec) err)
                              msg) /\
            api_errors.IsConflict (errors.Cause (errors.Wrapf
                              (NewConflict env (gvk_Group (obj_GVK spec))
                                           (gvk_Kind (obj_GVK spec)) (obj_Name spec) err)
                              msg)) = true
        else a = NotApplied true err) /\
    (forall actual,
        found = Some actual ->
        (obj_DeletionTimestamp actual <> None \/
         IsControlledBy actual (bundle_UID (st_bundle s)) = false ->
         (exists e, a = NotApplied false e) /\ noWrites evs) /\
        (forall updated err w3,
            obj_DeletionTimestamp actual = None ->
            IsControlledBy actual (bundle_UID (st_bundle s)) = true ->
            SpecCheck_CompareActualVsSpec env spec actual = Ok (updated, false) ->
            Client_Update env c updated w2 = (Err err, w3) ->
            last evs = Some (EvUpdate c updated (Err err)) /\
            if api_errors.IsConflict err
            then exists msg,
                a = NotApplied false (errors.Wrapf err msg) /\
                api_errors.IsConflict (errors.Cause (errors.Wrapf err msg)) = true
            else a = NotApplied true err)).
Proof.
  intros Hclient Hstore.
  cbv beta iota zeta delta
      [createOrUpdate createResource updateResource Create Update
       bind getBundle ForGVK storeGet invoke ret logPrintf].
  rewrite Hclient. cbv beta iota. simpl. rewrite Hstore. cbv beta iota.
  destruct found as [actual|]; simpl.
  - destruct (bool_decide (obj_DeletionTimestamp actual <> None)) eqn:Hdeleted; simpl.
    { eexists _, _, _. split; [reflexivity|].
      split; [simpl; rewrite <- ?app_assoc; reflexivity|]. simpl.
      split; [done|]. intros ? [= <-]. split.
      - intros _. split; [by eexists|]. by repeat constructor.
      - intros updated err w3 Hnone. apply bool_decide_eq_true in Hdeleted.
        contradiction. }
    apply bool_decide_eq_false in Hdeleted.
    assert (obj_DeletionTimestamp actual = None) as Hkept
        by (by destruct (obj_DeletionTimestamp actual); [destruct Hdeleted|]).
    destruct (IsControlledBy actual (bundle_UID (st_bundle s))) eqn:Hcontrolled; simpl.
    2:{ eexists _, _, _. split; [reflexivity|].
        split; [simpl; rewrite <- ?app_assoc; reflexivity|]. simpl.
        split; [done|]. intros ? [= <-]. split.
        - intros _. split; [by eexists|]. by repeat constructor.
        - intros updated err w3 _ Hyes. congruence. }
    destruct (SpecCheck_CompareActualVsSpec env spec actual) as [[updated [|]]|e]
      eqn:Hcompare; simpl.
    1,3: eexists _, _, _; (split; [reflexivity|]);
      (split; [simpl; rewrite <- ?app_assoc; reflexivity|]); simpl;
      (split; [done|]); intros ? [= <-]; split;
      [intros [Hgone|Hother]; congruence|intros; congruence].
    destruct (Client_Update env _ updated w2) as [[response|err] w3] eqn:Hupdate; simpl.
    { eexists _, _, _. split; [reflexivity|].
      split; [simpl; rewrite <- ?app_assoc; reflexivity|]. simpl.
      split; [done|]. intros ? [= <-]. split.
      - intros [Hgone|Hother]; congruence.
      - intros updated' err w3' _ _ Hcompare' Hupdate'.
        rewrite Hcompare in Hcompare'. injection Hcompare' as <-. congruence. }
    destruct (api_errors.IsConflict err) eqn:Hconflict; simpl.
    all: eexists _, _, _; (split; [reflexivity|]);
      (split; [simpl; rewrite <- ?app_assoc; reflexivity|]); simpl;
      (split; [done|]); intros ? [= <-]; split;
      [intros [Hgone|Hother]; congruence|];
      intros updated' err' w3' _ _ Hcompare' Hupdate';
      rewrite Hcompare in Hcompare'; injection Hcompare' as <-;
      rewrite Hupdate in Hupdate'; injection Hupdate' as <- <-;
      (split; [done|]); rewrite Hconflict;
      first [eexists; split; [reflexivity|simpl; by apply IsConflict_Cause]|done].
  - destruct (Client_Create env _ spec w2) as [[response|err] w3] eqn:Hcreate; simpl.
    { eexists _, _, _. split; [reflexivity|].
      split; [simpl; rewrite <- ?app_assoc; reflexivity|]. simpl.
      split; [|done]. intros err w3' _ Hcreate'. congruence. }
    destruct (api_errors.IsAlreadyExists err) eqn:Hexists; simpl.
    all: eexists _, _, _; (split; [reflexivity|]);
      (split; [simpl; rewrite <- ?app_assoc; reflexivity|]); simpl;
      (split; [|done]); intros err' w3' _ Hcreate';
      injection Hcreate' as <- <-;
      (split; [done|]); rewrite Hexists; first [by eexists|done].
Qed.

Lemma createOrUpdate_classifies_errors_witness :
  exists msg s',
    createOrUpdate
      (Scenario.tableEnv (fun _ => None) []
                         (fun _ => Err (StatusError StatusReasonAlreadyExists "exists"))
                         Ok (fun _ => None) (fun _ => (true, false, None)) Ok)
      (Scenario.object "a" "" [])
      (Scenario.start (Scenario.bundleOf [] []))
    = Some (NotApplied false
                       (errors.Wrapf
                          (StatusError StatusReasonConflict
                                       "Operation cannot be fulfilled on ConfigMap 'a': exists")
                          msg), s').
Proof.
  destruct (createOrUpdate_classifies_errors
              (Scenario.tableEnv (fun _ => None) []
                                 (fun _ => Err (StatusError StatusReasonAlreadyExists "exists"))
                                 Ok (fun _ => None) (fun _ => (true, false, None)) Ok)
              (Scenario.object "a" "" [])
              (Scenario.start (Scenario.bundleOf [] []))
              tt tt None eq_refl eq_refl)
    as (a & s' & evs & Hrun & _ & Hcreate & _).
  destruct (Hcreate (StatusError StatusReasonAlreadyExists "exists") tt eq_refl eq_refl)
    as [_ (msg & -> & _)].
  by exists msg, s'.
Defined.

(** ** Owner references *)

Section OwnerReferences.

Context {World : Type}.
Variable env : Env World.

Lemma checkOwnerReferences_controller name refs :
  (exists ref, ref ∈ refs /\ ref_Controller ref = Some true) ->
  exists e, checkOwnerReferences env name refs = Err e.
Proof.
  intros (ref & Hin & Hcontroller).
  induction refs as [|ref0 rest IH]; [by apply elem_of_nil in Hin|].
  simpl. destruct (ref_Controller ref0) as [[|]|] eqn:Hc; [by eexists| |].
  - apply elem_of_cons in Hin as [->|Hin]; [congruence|].
    destruct (IH Hin) as [e ->]. by eexists.
  - apply elem_of_cons in Hin as [->|Hin]; [congruence|].
    destruct (IH Hin) as [e ->]. by eexists.
Qed.

Lemma checkOwnerReferences_plain name refs :
  (forall ref, ref ∈ refs -> ref_Controller ref <> Some true) ->
  checkOwnerReferences env name refs = Ok (blockOwnerDeletion <$> refs).
Proof.
  induction refs as [|ref0 rest IH]; intros Hplain; [done|].
  simpl. rewrite IH by (intros ref Hin; apply Hplain; by right).
  pose proof (Hplain ref0 ltac:(by left)) as Hc.
  by destruct (ref_Controller ref0) as [[|]|].
Qed.

Lemma dependencyReferences_ready (ready : gmap ResourceName Unstructured) deps :
  (forall dep, dep ∈ deps -> is_Some (ready !! dep)) ->
  exists refs, dependencyReferences ready deps = Some refs /\
               dependencyReferencesOf ready deps refs.
Proof.
  induction deps as [|dep rest IH]; intros Hready.
  - exists []. split; [done|constructor].
  - destruct (Hready dep ltac:(by left)) as [obj Hobj].
    destruct IH as (refs & Hrefs & Hall); [intros d Hd; apply Hready; by right|].
    exists (dependencyReference obj :: refs). simpl. rewrite Hobj, Hrefs.
    split; [done|]. constructor; [by exists obj|done].
Qed.

End OwnerReferences.

(** C2 (as amended).  When the specification of a resource is evaluated,
    an incoming owner reference with [controller = true] makes
    [checkResource] fail terminally, whichever object it names.  Without
    such a reference, and with every dependency in the ready set, the
    evaluated specification carries the incoming references with
    [blockOwnerDeletion = true], then the controller reference to the
    bundle, then one reference without controller flag to the object
    observed for each entry of [dependsOn]. *)
Theorem evalSpec_owner_references {World} (env : Env World)
        (res : Resource) (s : @syncTask World) (spec0 spec1 : Unstructured) :
  Resource_ToUnstructured env res = Ok spec0 ->
  Spec_ProcessObject env (res_Name res) (st_readyResources s) (res_DependsOn res) spec0
  = Ok spec1 ->
  ((exists ref, ref ∈ obj_OwnerReferences spec1 /\ ref_Controller ref = Some true) ->
   exists e, evalSpec env res s = Some (Err e, s) /\
             checkResource env res s = Some ((None, false, Some e), s)) /\
  ((forall ref, ref ∈ obj_OwnerReferences spec1 -> ref_Controller ref <> Some true) ->
   (forall dep, dep ∈ res_DependsOn res -> is_Some (st_readyResources s !! dep)) ->
   exists spec deps,
     evalSpec env res s = Some (Ok spec, s) /\
     obj_OwnerReferences spec =
     (blockOwnerDeletion <$> obj_OwnerReferences spec1) ++
     [bundleReference env (st_bundle s)] ++ deps /\
     dependencyReferencesOf (st_readyResources s) (res_DependsOn res) deps).
Proof.
  intros Hconvert Hprocess. split.
  - intros Hcontroller.
    destruct (checkOwnerReferences_controller env (res_Name res) _ Hcontroller) as [e He].
    exists e.
    assert (evalSpec env res s = Some (Err e, s)) as Heval.
    { unfold evalSpec. rewrite Hconvert.
      unfold bind, getReadyResources, getBundle, ret. rewrite Hprocess. simpl.
      by rewrite He. }
    split; [done|]. unfold checkResource, bind. by rewrite Heval.
  - intros Hplain Hready.
    destruct (dependencyReferences_ready (st_readyResources s) _ Hready)
      as (deps & Hdeps & Hall).
    eexists _, deps. split; [|split; [|exact Hall]].
    + unfold evalSpec. rewrite Hconvert.
      unfold bind, getReadyResources, getBundle, ret. rewrite Hprocess. simpl.
      rewrite (checkOwnerReferences_plain env _ _ Hplain), Hdeps. reflexivity.
    + simpl. by rewrite <- app_assoc.
Qed.

Lemma evalSpec_owner_references_witness :
  exists e,
    checkResource (Scenario.calm [])
                  (mkResource "A" [] (Scenario.object "a" "" [Scenario.controllerRef "other"]))
                  (Scenario.start (Scenario.bundleOf [] []))
    = Some ((None, false, Some e), Scenario.start (Scenario.bundleOf [] [])).
Proof.
  destruct (proj1 (evalSpec_owner_references
                     (Scenario.calm [])
                     (mkResource "A" [] (Scenario.object "a" "" [Scenario.controllerRef "other"]))
                     (Scenario.start (Scenario.bundleOf [] []))
                     _ _ eq_refl eq_refl)) as (e & _ & Hcheck).
  - eexists. split; [by left|reflexivity].
  - by exists e.
Defined.

(** C2 as stated fails: an incoming controller reference to the parent
    bundle itself is rejected like any other. *)
Lemma evalSpec_owner_references_counterexample :
  let b := Scenario.bundleOf [] [] in
  let res := mkResource "A" []
                        (Scenario.object "a" "" [bundleReference (Scenario.calm []) b]) in
  ~ ((exists e s', checkResource (Scenario.calm []) res (Scenario.start b)
                   = Some ((None, false, Some e), s')) <->
     (exists ref, ref ∈ obj_OwnerReferences (res_Spec res) /\
                  ref_Controller ref = Some true /\
                  ref <> bundleReference (Scenario.calm []) b)).
Proof.
  intros b res [Hfails _].
  destruct Hfails as (ref & Hin & _ & Hother).
  - eexists _, _. vm_compute. reflexivity.
  - apply list_elem_of_singleton in Hin. contradiction.
Qed.

(** ** Deletion of removed resources *)

Ltac leaf IH :=
  match goal with
  | |- exists r s' chunks logs, deleteObjects _ _ _ ?fe ?rt ?s1 = _ /\ _ =>
      let r := fresh "r" in
      let s' := fresh "s'" in
      let chunks := fresh "chunks" in
      let logs := fresh "logs" in
      destruct (IH fe rt s1)
        as (r & s' & chunks & logs & Hrun & Htr & Hall & Hlog & Hb & Hrr & Hres);
      simpl in Htr, Hlog, Hb, Hrr;
      let c := match type of Htr with
               | _ = ((_ ++ ?c1) ++ ?c2) ++ _ => constr:(c1 ++ c2)
               | _ = (_ ++ ?c1) ++ _ => c1
               end in
      let l := match type of Hlog with
               | _ = ((_ ++ ?l1) ++ ?l2) ++ _ => constr:(l1 ++ l2)
               | _ = (_ ++ ?l1) ++ _ => l1
               end in
      exists r, s', (c :: chunks), (l ++ logs)
  end.

Section Deletion.

Context {World : Type}.
Variable env : Env World.

Lemma collectExisting_run b objs acc (s : @syncTask World) :
  exists logs,
    collectExisting b objs acc s =
    Some (existing b objs acc,
          mkSyncTask (st_bundle s) (st_readyResources s) (st_world s) (st_trace s)
                     (st_log s ++ logs)) /\
    filter isFailureLog logs = [].
Proof.
  revert acc s. induction objs as [|m rest IH]; intros acc s; simpl.
  - exists []. rewrite app_nil_r. by destruct s.
  - destruct (bool_decide (obj_DeletionTimestamp m <> None)); [apply IH|].
    destruct (negb (IsControlledBy m (bundle_UID b))); [|apply IH].
    unfold bind, logPrintf.
    edestruct IH as (logs & -> & Hlogs). eexists (_ :: logs). simpl.
    rewrite <- app_assoc. split; [reflexivity|]. done.
Qed.

Lemma existing_lookup b objs acc ref uid :
  existing b objs acc !! ref = Some uid ->
  acc !! ref = Some uid \/
  exists m, m ∈ objs /\ deletable b m /\ refOf m = ref /\ obj_UID m = uid.
Proof.
  revert acc. induction objs as [|m rest IH]; intros acc; simpl; [by left|].
  destruct (bool_decide (obj_DeletionTimestamp m <> None)) eqn:Hdel.
  { intros H. destruct (IH _ H) as [?|(m' & ? & ?)]; [by left|].
    right. exists m'. split; [by right|done]. }
  destruct (IsControlledBy m (bundle_UID b)) eqn:Hc; simpl.
  2:{ intros H. destruct (IH _ H) as [?|(m' & ? & ?)]; [by left|].
      right. exists m'. split; [by right|done]. }
  intros H. destruct (IH _ H) as [Hacc|(m' & ? & ?)].
  - destruct (decide (refOf m = ref)) as [<-|Hne].
    + rewrite lookup_insert_eq in Hacc. injection Hacc as <-.
      right. exists m. split; [by left|].
      apply bool_decide_eq_false in Hdel. repeat split; try done.
      by destruct (obj_DeletionTimestamp m); [destruct Hdel|].
    + rewrite lookup_insert_ne in Hacc by done. by left.
  - right. exists m'. split; [by right|done].
Qed.

Lemma existing_keeps b objs acc ref :
  is_Some (acc !! ref) -> is_Some (existing b objs acc !! ref).
Proof.
  revert acc. induction objs as [|m rest IH]; intros acc Hsome; simpl; [done|].
  destruct (bool_decide _); [by apply IH|].
  destruct (negb _); [by apply IH|].
  apply IH. destruct (decide (refOf m = ref)) as [<-|Hne].
  - rewrite lookup_insert_eq. by eexists.
  - by rewrite lookup_insert_ne.
Qed.

Lemma existing_covers b objs acc m :
  m ∈ objs -> deletable b m -> is_Some (existing b objs acc !! refOf m).
Proof.
  intros Hin [Hdel Hc]. revert acc.
  induction objs as [|m0 rest IH]; intros acc; [by apply elem_of_nil in Hin|].
  simpl. apply elem_of_cons in Hin as [<-|Hin].
  - rewrite bool_decide_eq_false_2 by (by intros []). rewrite Hc. simpl.
    apply existing_keeps. rewrite lookup_insert_eq. by eexists.
  - destruct (bool_decide _); [by apply IH|].
    destruct (negb _); by apply IH.
Qed.

Lemma removeDeclared_lookup resources (m : gmap objectRef UID) ref uid :
  removeDeclared resources m !! ref = Some uid <->
  m !! ref = Some uid /\
  ~ exists res, res ∈ resources /\ refOf (res_Spec res) = ref.
Proof.
  unfold removeDeclared. revert m.
  induction resources as [|res rest IH]; intros m; simpl.
  - split; [intros H; split; [done|]|by intros [? _]].
    intros (res & Hin & _). by apply elem_of_nil in Hin.
  - rewrite IH. destruct (decide (refOf (res_Spec res) = ref)) as [<-|Hne].
    + rewrite lookup_delete_eq. split; [by intros [? _]|].
      intros [_ Hnot]. destruct Hnot. exists res. split; [by left|done].
    + rewrite lookup_delete_ne by done. split; intros [Hm Hnot]; (split; [done|]).
      * intros (res' & Hin & Href). apply elem_of_cons in Hin as [->|Hin]; [done|].
        apply Hnot. by exists res'.
      * intros (res' & Hin & Href). apply Hnot. exists res'. split; [by right|done].
Qed.

(** The deletion loop always returns: what it attempts, what it returns
    and what it logs. *)
Lemma deleteObjects_run b targets firstErr retriable (s : @syncTask World) :
  exists r s' chunks logs,
    deleteObjects env b targets firstErr retriable s = Some (r, s') /\
    st_trace s' = st_trace s ++ concat chunks /\
    Forall2 (attempt b) targets chunks /\
    st_log s' = st_log s ++ logs /\
    st_bundle s' = st_bundle s /\
    st_readyResources s' = st_readyResources s /\
    match firstErr with
    | Some e =>
        r = (retriable, Some e) /\
        filter isFailureLog logs = omap failureLog (concat chunks)
    | None =>
        r = match failures (concat chunks) with
            | [] => (retriable, None)
            | (client, e) :: _ => (if client then false else retriable, Some e)
            end /\
        filter isFailureLog logs = tail (omap failureLog (concat chunks))
    end.
Proof.
  revert firstErr retriable s.
  induction targets as [|[ref uid] rest IH]; intros firstErr retriable s.
  - exists (retriable, firstErr), s, [], []. simpl. rewrite !app_nil_r.
    do 2 (split; [done|]). split; [constructor|]. do 3 (split; [done|]).
    by destruct firstErr.
  - simpl.
    cbv beta iota zeta delta [bind logPrintf ForGVK Delete invoke ret].
    repeat (first [answer | branch]); destruct firstErr as [first|]; simpl;
      leaf IH.
    all: split; [exact Hrun|].
    all: split; [rewrite Htr; simpl; by rewrite <- ?app_assoc|].
    all: split; [constructor; [|exact Hall]|].
    all: try (left; by eexists).
    all: try (right; by eexists).
    all: split; [rewrite Hlog; simpl; by rewrite <- ?app_assoc|].
    all: do 2 (split; [done|]).
    all: destruct Hres as [-> Hfilter]; unfold failures; simpl.
    all: repeat match goal with
                | H : ?c = _ |- context [if ?c then _ else _] => rewrite H
                end; simpl.
    all: repeat first [rewrite filter_cons_True by done
                      |rewrite filter_cons_False by (by intros [])].
    all: try (by rewrite Hfilter).
Qed.

Lemma failures_concat_cons (ev : Event) evs :
  failureOf ev = None -> failures (ev :: evs) = failures evs.
Proof. unfold failures. simpl. by intros ->. Qed.

(** [deleteRemovedResources] once the store has listed the objects of
    the bundle. *)
Lemma deleteRemovedResources_run (s : @syncTask World) objs w :
  let b := st_bundle s in
  Store_GetObjectsForBundle env (bundle_Namespace b) (bundle_Name b) (st_world s)
  = (Ok objs, w) ->
  exists r s' chunks logs,
    deleteRemovedResources env s = Some (r, s') /\
    st_trace s' = st_trace s ++
                  EvStoreGetObjectsForBundle (bundle_Namespace b) (bundle_Name b) (Ok objs)
                  :: concat chunks /\
    Forall2 (attempt b)
            (rangeOrder env (removeDeclared (bundle_Resources b) (existing b objs ∅)))
            chunks /\
    st_log s' = st_log s ++ logs /\
    st_bundle s' = st_bundle s /\
    st_readyResources s' = st_readyResources s /\
    r = match failures (concat chunks) with
        | [] => (true, None)
        | (client, e) :: _ => (if client then false else true, Some e)
        end /\
    filter isFailureLog logs = tail (omap failureLog (concat chunks)).
Proof.
  intros b Hlist. unfold deleteRemovedResources.
  unfold bind at 1, getBundle. unfold bind at 1, storeGetObjectsForBundle, invoke.
  fold b. rewrite Hlist. unfold bind at 1.
  match goal with
  | |- context [collectExisting b objs ∅ ?s0] =>
      destruct (collectExisting_run b objs ∅ s0) as (logs0 & -> & Hquiet)
  end.
  match goal with
  | |- context [deleteObjects env b ?targets None true ?s1] =>
      destruct (deleteObjects_run b targets None true s1)
        as (r & s' & chunks & logs & Hrun & Htr & Hall & Hlog & Hb & Hrr & Hr & Hfilter)
  end.
  simpl in *. exists r, s', chunks, (logs0 ++ logs).
  split; [done|]. split; [by rewrite Htr, <- app_assoc|]. split; [done|].
  split; [by rewrite Hlog, <- app_assoc|]. do 3 (split; [done|]).
  by rewrite filter_app, Hquiet.
Qed.

End Deletion.

(** C3 (as amended).  When the store has listed the objects of the bundle,
    [deleteRemovedResources] returns the first failure it meets, in the
    order in which it visits the objects, and logs every later one.  The
    flag it returns is [false] exactly when that first failure is a client
    that could not be acquired, whatever fails later; it is [true] when the
    first failure is a delete that the server refused, and when nothing
    fails. *)
Theorem deleteRemovedResources_first_error {World} (env : Env World)
        (s : @syncTask World) (objs : list Unstructured) (w : World) :
  Store_GetObjectsForBundle env (bundle_Namespace (st_bundle s)) (bundle_Name (st_bundle s))
                            (st_world s) = (Ok objs, w) ->
  exists r s' evs logs,
    deleteRemovedResources env s = Some (r, s') /\
    st_trace s' = st_trace s ++ evs /\
    st_log s' = st_log s ++ logs /\
    r.2 = head (snd <$> failures evs) /\
    filter isFailureLog logs = tail (omap failureLog evs) /\
    (r.1 = false <-> exists e rest, failures evs = (true, e) :: rest).
Proof.
  intros Hlist.
  destruct (deleteRemovedResources_run env s objs w Hlist)
    as (r & s' & chunks & logs & Hrun & Htr & _ & Hlog & _ & _ & Hr & Hfilter).
  exists r, s', (EvStoreGetObjectsForBundle (bundle_Namespace (st_bundle s))
                                           (bundle_Name (st_bundle s)) (Ok objs)
                 :: concat chunks), logs.
  do 3 (split; [done|]).
  rewrite failures_concat_cons by done. simpl.
  destruct (failures (concat chunks)) as [|[client e] rest]; subst r; simpl.
  - do 2 (split; [done|]). split; [done|]. by intros (? & ? & ?).
  - do 2 (split; [done|]). destruct client; split; try done.
    + intros _. by eexists _, _.
    + by intros (? & ? & [= ? ?]).
Qed.

Lemma deleteRemovedResources_first_error_witness :
  exists r s' evs logs,
    deleteRemovedResources Scenario.stubborn (Scenario.start (Scenario.bundleOf [] []))
    = Some (r, s') /\
    st_trace s' = [] ++ evs /\
    st_log s' = [] ++ logs /\
    r.2 = head (snd <$> failures evs) /\
    filter isFailureLog logs = tail (omap failureLog evs) /\
    (r.1 = false <-> exists e rest, failures evs = (true, e) :: rest).
Proof.
  eapply (deleteRemovedResources_first_error
            Scenario.stubborn (Scenario.start (Scenario.bundleOf [] []))).
  reflexivity.
Defined.

(** C3 as stated fails: the client for the widget cannot be acquired, the
    delete of the config map is refused afterwards, and the pass still
    reports [retriable = false], although the client was not the only
    failure. *)
Lemma deleteRemovedResources_first_error_counterexample :
  ~ forall r s',
      deleteRemovedResources Scenario.stubborn (Scenario.start (Scenario.bundleOf [] []))
      = Some (r, s') ->
      (r.1 = false <-> Forall (fun f => f.1 = true) (failures (st_trace s'))).
Proof.
  intros Hclaim.
  destruct (deleteRemovedResources Scenario.stubborn
                                   (Scenario.start (Scenario.bundleOf [] [])))
    as [[r s']|] eqn:Hrun; [|by vm_compute in Hrun].
  specialize (Hclaim r s' eq_refl).
  vm_compute in Hrun. injection Hrun as <- <-.
  destruct Hclaim as [Honly _]. specialize (Honly eq_refl).
  vm_compute in Honly. inversion Honly as [|? ? _ Hrest]; subst.
  inversion Hrest as [|? ? Hdelete _]; subst. discriminate Hdelete.
Qed.

(** C8 (as amended).  When the store has listed the objects of the bundle,
    [deleteRemovedResources] makes one attempt per object reference to
    delete, and nothing else.  The references to delete are those of the
    listed objects that the bundle controls, that carry no deletion
    timestamp and whose (group/version/kind, name) no resource of the
    bundle declares; the others are skipped.  An attempt first acquires the
    client for the kind of the object: without client no delete is issued,
    with it one delete is issued, with the UID of an observed object of
    that reference as precondition and foreground propagation.  When no
    client fails and every delete is answered with success, NotFound or
    Conflict, the result is [(true, nil)]. *)
Theorem deleteRemovedResources_targets {World} (env : Env World)
        (s : @syncTask World) (objs : list Unstructured) (w : World) :
  let b := st_bundle s in
  Store_GetObjectsForBundle env (bundle_Namespace b) (bundle_Name b) (st_world s)
  = (Ok objs, w) ->
  exists r s' targets chunks,
    deleteRemovedResources env s = Some (r, s') /\
    st_trace s' = st_trace s ++
                  EvStoreGetObjectsForBundle (bundle_Namespace b) (bundle_Name b) (Ok objs)
                  :: concat chunks /\
    Forall2 (attempt b) targets chunks /\
    NoDup targets.*1 /\
    (forall ref uid,
        (ref, uid) ∈ targets ->
        ~ declared b ref /\
        exists m, m ∈ objs /\ deletable b m /\ refOf m = ref /\ obj_UID m = uid) /\
    (forall m, m ∈ objs -> deletable b m -> ~ declared b (refOf m) ->
               exists uid, (refOf m, uid) ∈ targets) /\
    (failures (concat chunks) = [] -> r = (true, None)).
Proof.
  intros b Hlist.
  destruct (deleteRemovedResources_run env s objs w Hlist)
    as (r & s' & chunks & logs & Hrun & Htr & Hall & _ & _ & _ & Hr & _).
  fold b in Htr, Hall.
  set (existingObjs := removeDeclared (bundle_Resources b) (existing b objs ∅)) in *.
  pose proof (rangeOrder_visits_each_once env existingObjs) as Hperm.
  exists r, s', (rangeOrder env existingObjs), chunks.
  do 3 (split; [done|]).
  split; [rewrite Hperm; apply NoDup_fst_map_to_list|].
  split; [|split].
  - intros ref uid Hin. rewrite Hperm in Hin.
    apply elem_of_map_to_list, removeDeclared_lookup in Hin as [Hexisting Hnot].
    split; [done|].
    apply existing_lookup in Hexisting as [Hempty|Hm]; [|done].
    by rewrite lookup_empty in Hempty.
  - intros m Hin Hdeletable Hnot.
    destruct (existing_covers b objs ∅ m Hin Hdeletable) as [uid Huid].
    exists uid. rewrite Hperm. apply elem_of_map_to_list, removeDeclared_lookup.
    by split.
  - intros Hnone. by rewrite Hnone in Hr.
Qed.

Lemma deleteRemovedResources_targets_witness :
  exists r s' targets chunks,
    deleteRemovedResources
      (Scenario.calm [Scenario.object "c" "uid-c" [Scenario.controllerRef "uid-bundle"]])
      (Scenario.start (Scenario.bundleOf [] [])) = Some (r, s') /\
    Forall2 (attempt (Scenario.bundleOf [] [])) targets chunks /\
    (exists uid, (mkObjectRef Scenario.configMap "c", uid) ∈ targets) /\
    (failures (concat chunks) = [] -> r = (true, None)).
Proof.
  destruct (deleteRemovedResources_targets
              (Scenario.calm [Scenario.object "c" "uid-c"
                                              [Scenario.controllerRef "uid-bundle"]])
              (Scenario.start (Scenario.bundleOf [] []))
              [Scenario.object "c" "uid-c" [Scenario.controllerRef "uid-bundle"]] tt eq_refl)
    as (r & s' & targets & chunks & Hrun & _ & Hall & _ & _ & Hcovers & Hquiet).
  exists r, s', targets, chunks. do 2 (split; [done|]). split; [|done].
  apply (Hcovers (Scenario.object "c" "uid-c" [Scenario.controllerRef "uid-bundle"])).
  - by left.
  - by split.
  - intros (res & Hin & _). by apply elem_of_nil in Hin.
Defined.

(** C8 as stated fails: the widget is listed by the store, controlled by
    the bundle, not being deleted and not declared, yet no delete is issued
    for it, because the client for widgets cannot be acquired. *)
Lemma deleteRemovedResources_targets_counterexample :
  let b := Scenario.bundleOf [] [] in
  let m := mkUnstructured Scenario.widget "w" "uid-w" ∅
                          [Scenario.controllerRef "uid-bundle"] None [] in
  deletable b m /\ ~ declared b (refOf m) /\
  exists r s',
    deleteRemovedResources Scenario.stubborn (Scenario.start b) = Some (r, s') /\
    EvStoreGetObjectsForBundle "ns" "bundle"
      (Ok [m; Scenario.object "c" "uid-c" [Scenario.controllerRef "uid-bundle"]])
    ∈ st_trace s' /\
    forall c opts resp, EvDelete c "w" opts resp ∉ st_trace s'.
Proof.
  intros b m. split; [by split|]. split.
  { intros (res & Hin & _). by apply elem_of_nil in Hin. }
  eexists _, _. split; [vm_compute; reflexivity|]. split; [by left|].
  intros c opts resp Hin.
  repeat (apply elem_of_cons in Hin as [Hin|Hin]; [discriminate Hin|]).
  by apply elem_of_nil in Hin.
Qed.

(** ** The dependency graph of a bundle *)

Module graph_facts.

Import graph graph_order.

Lemma extends_refl g : extends g g.
Proof. by repeat split. Qed.

Lemma extends_trans g1 g2 g3 : extends g1 g2 -> extends g2 g3 -> extends g1 g3.
Proof.
  intros (Ho1 & Hv1 & He1) (Ho2 & Hv2 & He2). split; [congruence|]. split.
  - intros v. by rewrite Hv2.
  - intros v d H. by apply He2, He1.
Qed.

Lemma AddEdge_ok g from to g' :
  AddEdge g from to = Ok g' ->
  is_Some (Vertices g !! to) /\ extends g g' /\ edge g' from to.
Proof.
  unfold AddEdge.
  destruct (Vertices g !! from) as [f|] eqn:Hfrom; [|done].
  destruct (Vertices g !! to) as [t|] eqn:Hto; [|done].
  intros [= <-]. split; [by eexists|]. split; [split; [done|split]|].
  - intros v. simpl. destruct (decide (from = v)) as [<-|Hne].
    + rewrite lookup_insert_eq, Hfrom. split; by eexists.
    + by rewrite lookup_insert_ne.
  - intros v d. unfold edge, edgesOf. simpl.
    destruct (decide (from = v)) as [<-|Hne].
    + rewrite lookup_insert_eq, Hfrom. simpl. intros H. apply elem_of_app. by left.
    + by rewrite lookup_insert_ne.
  - unfold edge, edgesOf. simpl. rewrite lookup_insert_eq. simpl.
    apply elem_of_app. right. by left.
Qed.

Lemma sortRounds_dependenciesFirst rounds g sorted :
  dependenciesFirst g sorted -> dependenciesFirst g (sortRounds rounds g sorted).
Proof.
  revert sorted. induction rounds as [|rounds IH]; intros sorted Hsorted; [done|].
  simpl. destruct (List.find _ _) as [v|] eqn:Hfind; [|done].
  apply IH. apply find_some in Hfind as [_ Hsel].
  unfold selectable in Hsel. apply andb_true_iff in Hsel as [_ Hdeps].
  rewrite forallb_forall in Hdeps.
  intros i w d Hi Hedge. destruct (decide (i < length sorted)) as [Hlt|Hge].
  - rewrite lookup_app_l in Hi by done.
    destruct (Hsorted i w d Hi Hedge) as (j & Hj & Hd).
    exists j. split; [done|]. rewrite lookup_app_l by lia. done.
  - rewrite lookup_app_r in Hi by lia.
    destruct (i - length sorted) as [|k] eqn:Hk; [|by destruct k].
    injection Hi as <-.
    assert (d ∈ sorted) as Hd.
    { apply list_elem_of_In, Hdeps in Hedge.
      by apply bool_decide_eq_true in Hedge. }
    apply list_elem_of_lookup in Hd as [j Hj].
    exists j. pose proof (lookup_lt_Some _ _ _ Hj).
    split; [lia|]. by rewrite lookup_app_l.
Qed.

Lemma TopologicalSort_ok g sorted :
  TopologicalSort g = Ok sorted ->
  (forall v, v ∈ orderedVertices g -> v ∈ sorted) /\ dependenciesFirst g sorted.
Proof.
  unfold TopologicalSort.
  destruct (forallb _ _) eqn:Hall; [|done]. intros [= <-]. split.
  - rewrite forallb_forall in Hall. intros v Hv.
    apply list_elem_of_In, Hall in Hv. by apply bool_decide_eq_true in Hv.
  - apply sortRounds_dependenciesFirst. intros i v d Hi. by destruct i.
Qed.

Lemma dependenciesFirst_reach g sorted v w :
  dependenciesFirst g sorted -> tc (edge g) v w ->
  forall i, sorted !! i = Some v -> exists j, j < i /\ sorted !! j = Some w.
Proof.
  intros Hsorted Hreach. induction Hreach as [v w Hedge|v u w Hedge _ IH]; intros i Hi.
  - by eapply Hsorted.
  - destruct (Hsorted i v u Hi Hedge) as (j & Hj & Hu).
    destruct (IH j Hu) as (k & Hk & Hw). exists k. split; [lia|done].
Qed.

Lemma dependenciesFirst_acyclic g sorted v :
  dependenciesFirst g sorted -> v ∈ sorted -> ~ tc (edge g) v v.
Proof.
  intros Hsorted Hin Hcycle. apply list_elem_of_lookup in Hin as [i Hi].
  revert v Hi Hcycle. induction (lt_wf i) as [i _ IH]. intros v Hi Hcycle.
  destruct (dependenciesFirst_reach g sorted v v Hsorted Hcycle i Hi) as (j & Hj & Hv).
  by apply (IH j Hj v).
Qed.

Lemma sortRounds_vertices rounds g sorted v :
  v ∈ sortRounds rounds g sorted -> v ∈ sorted \/ v ∈ orderedVertices g.
Proof.
  revert sorted. induction rounds as [|rounds IH]; intros sorted; simpl; [by left|].
  destruct (List.find _ _) as [w|] eqn:Hfind; [|by left].
  intros Hin. destruct (IH _ Hin) as [Hold|?]; [|by right].
  apply elem_of_app in Hold as [?|Hw]; [by left|].
  apply list_elem_of_singleton in Hw as ->. right.
  apply find_some in Hfind as [Hin' _]. by apply list_elem_of_In.
Qed.

Lemma TopologicalSort_vertices g sorted v :
  TopologicalSort g = Ok sorted -> v ∈ sorted -> v ∈ orderedVertices g.
Proof.
  unfold TopologicalSort. destruct (forallb _ _); [|done]. intros [= <-] Hin.
  apply sortRounds_vertices in Hin as [Hnil|?]; [by apply elem_of_nil in Hnil|done].
Qed.

End graph_facts.

Section SortBundle.

Import graph graph_order graph_facts.

Context {World : Type}.
Variable env : Env World.

Lemma buildResourceMap_ok resources (m m' : gmap ResourceName Resource) :
  buildResourceMap env resources m = Ok m' ->
  NoDup (res_Name <$> resources) /\
  forall res, res ∈ resources -> m !! res_Name res = None.
Proof.
  revert m. induction resources as [|res rest IH]; intros m; simpl.
  - intros _. split; [constructor|]. intros res Hin. by apply elem_of_nil in Hin.
  - destruct (m !! res_Name res) eqn:Hm; [done|]. intros Hrest.
    destruct (IH _ Hrest) as [Hnodup Hfresh]. split.
    + constructor; [|done]. intros Hin.
      apply list_elem_of_fmap in Hin as (res' & Hname & Hin).
      specialize (Hfresh res' Hin). rewrite <- Hname in Hfresh.
      by rewrite lookup_insert_eq in Hfresh.
    + intros res' Hin. apply elem_of_cons in Hin as [->|Hin]; [done|].
      specialize (Hfresh res' Hin).
      destruct (decide (res_Name res = res_Name res')) as [Heq|Hne].
      * rewrite Heq, lookup_insert_eq in Hfresh. done.
      * by rewrite lookup_insert_ne in Hfresh.
Qed.

Lemma addVertices_spec resources :
  orderedVertices (addVertices resources) = res_Name <$> resources /\
  forall v, is_Some (Vertices (addVertices resources) !! v) <->
            v ∈ res_Name <$> resources.
Proof.
  unfold addVertices.
  cut (forall g,
          let g' := foldl (fun g res => AddVertex g (res_Name res)) g resources in
          orderedVertices g' = orderedVertices g ++ (res_Name <$> resources) /\
          forall v, is_Some (Vertices g' !! v) <->
                    is_Some (Vertices g !! v) \/ v ∈ res_Name <$> resources).
  { intros H. destruct (H NewGraph) as [Horder Hdom]. split; [done|].
    intros v. rewrite Hdom. simpl. rewrite lookup_empty.
    split; [intros [[? ?]|?]; done|by right]. }
  induction resources as [|res rest IH]; intros g; simpl.
  - rewrite app_nil_r. split; [done|]. intros v. split; [by left|].
    intros [?|Hin]; [done|by apply elem_of_nil in Hin].
  - destruct (IH (AddVertex g (res_Name res))) as [Horder Hdom]. split.
    + rewrite Horder. simpl. by rewrite <- app_assoc.
    + intros v. rewrite Hdom. simpl.
      destruct (decide (res_Name res = v)) as [<-|Hne].
      * rewrite lookup_insert_eq. split; [intros _; right; by left|by left].
      * rewrite lookup_insert_ne by done. rewrite elem_of_cons.
        split; [intros [?|?]; [by left|right; by right]|].
        intros [?|[?|?]]; [by left|congruence|by right].
Qed.

Lemma addEdges_ok g from deps g' :
  addEdges g from deps = Ok g' ->
  extends g g' /\
  forall d, d ∈ deps -> is_Some (Vertices g !! d) /\ edge g' from d.
Proof.
  revert g. induction deps as [|d rest IH]; intros g; simpl.
  - intros [= <-]. split; [apply extends_refl|].
    intros d Hin. by apply elem_of_nil in Hin.
  - destruct (AddEdge g from d) as [g1|] eqn:Hadd; [|done]. intros Hrest.
    apply AddEdge_ok in Hadd as (Hto & Hext & Hedge).
    destruct (IH _ Hrest) as [Hext' Hall]. split; [by eapply extends_trans|].
    intros d' Hin. apply elem_of_cons in Hin as [->|Hin].
    + split; [done|]. by apply Hext'.
    + destruct (Hall d' Hin) as [Hsome Hedge']. split; [|done].
      by apply Hext.
Qed.

Lemma addAllEdges_ok g resources g' :
  addAllEdges g resources = Ok g' ->
  extends g g' /\
  forall res d, res ∈ resources -> d ∈ res_DependsOn res ->
                is_Some (Vertices g !! d) /\ edge g' (res_Name res) d.
Proof.
  revert g. induction resources as [|res rest IH]; intros g; simpl.
  - intros [= <-]. split; [apply extends_refl|].
    intros res d Hin. by apply elem_of_nil in Hin.
  - destruct (addEdges g (res_Name res) (res_DependsOn res)) as [g1|] eqn:Hadd; [|done].
    intros Hrest. apply addEdges_ok in Hadd as [Hext Hdeps].
    destruct (IH _ Hrest) as [Hext' Hall]. split; [by eapply extends_trans|].
    intros res' d Hin Hd. apply elem_of_cons in Hin as [->|Hin].
    + destruct (Hdeps d Hd) as [Hsome Hedge]. split; [done|]. by apply Hext'.
    + destruct (Hall res' d Hin Hd) as [Hsome Hedge]. split; [|done].
      by apply Hext.
Qed.

Lemma tc_dependsOn_declared b a c : tc (dependsOn b) a c -> a ∈ names b.
Proof.
  intros [? ? (res & Hin & <- & _)|? ? ? (res & Hin & <- & _) _];
    by apply list_elem_of_fmap_2.
Qed.

Lemma tc_dependsOn_edge b g a c :
  (forall x y, dependsOn b x y -> edge g x y) ->
  tc (dependsOn b) a c -> tc (edge g) a c.
Proof.
  intros Hedge Hreach. induction Hreach as [x y H|x y z H _ IH].
  - apply tc_once. by apply Hedge.
  - eapply tc_l; [apply Hedge; exact H|exact IH].
Qed.

(** What a successful [sortBundle] tells about the bundle and its result. *)
Lemma sortBundle_ok b g sorted :
  sortBundle b = Ok (g, sorted) ->
  ~ hasDanglingDependsOn b /\ ~ hasCycle b /\
  (forall a c, dependsOn b a c -> edge g a c) /\
  (forall v, v ∈ names b -> v ∈ sorted) /\
  dependenciesFirst g sorted.
Proof.
  unfold sortBundle.
  destruct (addAllEdges _ _) as [g1|] eqn:Hedges; [|done].
  destruct (TopologicalSort g1) as [sorted1|] eqn:Hsort; [|done].
  intros [= <- <-].
  destruct (addVertices_spec (bundle_Resources b)) as [Horder Hdom].
  apply addAllEdges_ok in Hedges as [(Hsame & _ & _) Hall].
  apply TopologicalSort_ok in Hsort as [Hcomplete Hfirst].
  assert (forall a c, dependsOn b a c -> edge g1 a c) as Hedge.
  { intros a c (res & Hin & <- & Hc). by apply Hall. }
  assert (forall v, v ∈ names b -> v ∈ sorted1) as Hnames.
  { intros v Hv. apply Hcomplete. by rewrite Hsame, Horder. }
  split; [|split; [|done]].
  - intros (a & c & (res & Hin & <- & Hc) & Hmissing).
    apply Hmissing, Hdom. by apply (Hall res c).
  - intros (a & Hcycle).
    apply (dependenciesFirst_acyclic g1 sorted1 a Hfirst).
    + by eapply Hnames, tc_dependsOn_declared.
    + by eapply tc_dependsOn_edge.
Qed.

End SortBundle.

(** C7.  A bundle with two resources of the same name, with a [dependsOn]
    entry that names no resource of the bundle, or with a cycle of
    [dependsOn] makes [process] fail terminally before it visits a vertex:
    it returns [retriable = false] with an error and leaves the task as it
    was, so that no call has been made: nothing is created, updated or
    deleted. *)
Theorem process_rejects_malformed_bundle {World} (env : Env World) (s : @syncTask World) :
  hasDuplicateNames (st_bundle s) \/ hasDanglingDependsOn (st_bundle s) \/
  hasCycle (st_bundle s) ->
  exists e, process env s = Some ((false, Some e), s).
Proof.
  intros Hmalformed. unfold process, bind, getBundle, ret.
  destruct (buildResourceMap env _ ∅) as [resourceMap|e] eqn:Hmap; [|by exists e].
  apply buildResourceMap_ok in Hmap as [Hnodup _].
  destruct (sortBundle (st_bundle s)) as [[g sorted]|e] eqn:Hsort; [|by exists e].
  apply sortBundle_ok in Hsort as (Hdangling & Hcycle & _).
  by destruct Hmalformed as [?|[?|?]].
Qed.

Lemma process_rejects_malformed_bundle_witness :
  let A := mkResource "A" ["B"] (Scenario.object "a" "" []) in
  let B := mkResource "B" ["A"] (Scenario.object "b" "" []) in
  exists e, process (Scenario.calm []) (Scenario.start (Scenario.bundleOf [A; B] []))
            = Some ((false, Some e), Scenario.start (Scenario.bundleOf [A; B] [])).
Proof.
  intros A B. apply process_rejects_malformed_bundle.
  right; right. exists "A". eapply tc_l; [|apply tc_once].
  - exists A. split; [by left|]. split; [done|by left].
  - exists B. split; [right; by left|]. split; [done|by left].
Defined.

(** ** The ready set *)

Section ReadySet.

Context {World : Type}.
Variable env : Env World.

Lemma evalSpec_frame res (s : @syncTask World) r s' :
  evalSpec env res s = Some (r, s') -> s' = s.
Proof.
  unfold evalSpec, bind, getReadyResources, getBundle, ret, panic.
  destruct (Resource_ToUnstructured env res); [|by intros [= _ <-]].
  destruct (Spec_ProcessObject env _ _ _ _); simpl; [|by intros [= _ <-]].
  destruct (checkOwnerReferences env _ _); [|by intros [= _ <-]].
  destruct (dependencyReferences _ _); [|done]. by intros [= _ <-].
Qed.

(** [checkResource] hands out an object only when the ready checker has
    just called it ready. *)
Lemma checkResource_ready res (s : @syncTask World) readyResource retriable err s' :
  checkResource env res s = Some ((readyResource, retriable, err), s') ->
  exists evs,
    st_trace s' = st_trace s ++ evs /\
    st_bundle s' = st_bundle s /\
    st_readyResources s' = st_readyResources s /\
    forall obj, readyResource = Some obj ->
                err = None /\
                exists flag, last evs = Some (EvIsReady obj (true, flag, None)).
Proof.
  unfold checkResource. unfold bind at 1.
  destruct (evalSpec env res s) as [[[spec|e] s0]|] eqn:Heval; [| |done].
  2:{ apply evalSpec_frame in Heval as ->. intros [= <- <- <- <-].
      exists []. by rewrite app_nil_r. }
  apply evalSpec_frame in Heval as ->. unfold bind at 1.
  destruct (createOrUpdate_frame env spec s) as (a & s1 & evs & -> & Htr & Hb & Hr).
  destruct a as [resUpdated|flag e].
  2:{ intros [= <- <- <- <-]. exists evs. by repeat split. }
  unfold bind, IsReady, invoke, ret.
  destruct (ReadyChecker_IsReady env resUpdated (st_world s1))
    as [[[ready flag] [e|]] w] eqn:Hready; simpl.
  { intros [= <- <- <- <-]. eexists (evs ++ [_]). simpl.
    rewrite Htr, <- app_assoc. by repeat split. }
  destruct ready; simpl; intros [= <- <- <- <-]; eexists (evs ++ [_]); simpl;
    rewrite Htr, <- app_assoc; (split; [reflexivity|]); do 2 (split; [done|]);
    intros obj [= <-]; split; [done|].
  exists flag. by rewrite last_snoc.
Qed.

Lemma dependenciesReady_run v deps (s : @syncTask World) :
  exists logs,
    dependenciesReady v deps s =
    Some (forallb (fun d => bool_decide (is_Some (st_readyResources s !! d))) deps,
          mkSyncTask (st_bundle s) (st_readyResources s) (st_world s) (st_trace s)
                     (st_log s ++ logs)).
Proof.
  induction deps as [|d rest IH]; simpl.
  - exists []. rewrite app_nil_r. by destruct s.
  - unfold bind, getReadyResources, logPrintf, ret.
    destruct (st_readyResources s !! d) as [obj|] eqn:Hd.
    + destruct IH as [logs ->]. exists logs.
      by rewrite bool_decide_eq_true_2 by (by eexists).
    + eexists [_]. rewrite bool_decide_eq_false_2; [done|]. by intros [? ?].
Qed.

(** One turn of the traversal either leaves the ready set alone or adds
    to it, under the name of the vertex, an object that the ready checker
    has just called ready. *)
Lemma visitVertex_ready g resourceMap v (s : @syncTask World) r s' :
  visitVertex env g resourceMap v s = Some (r, s') ->
  exists evs,
    st_trace s' = st_trace s ++ evs /\
    st_bundle s' = st_bundle s /\
    (st_readyResources s' = st_readyResources s \/
     exists obj, st_readyResources s' = <[v := obj]> (st_readyResources s) /\
                 r = None /\ checkedReady evs obj).
Proof.
  unfold visitVertex. destruct (graph.Vertices g !! v) as [vx|]; [|done].
  unfold bind at 1.
  destruct (dependenciesReady_run v (graph.Edges vx) s) as [logs ->].
  destruct (forallb _ _); simpl.
  2:{ intros [= <- <-]. exists []. rewrite app_nil_r. split; [done|]. split; [done|by left]. }
  unfold bind at 1, logPrintf. unfold bind at 1.
  destruct (checkResource env _ _) as [[[[readyResource retriable] err] s1]|] eqn:Hcheck;
    [|done].
  apply checkResource_ready in Hcheck as (evs & Htr & Hb & Hr & Hobj). simpl in *.
  destruct err as [e|].
  { intros [= <- <-]. exists evs. split; [done|]. split; [done|by left]. }
  unfold bind, logPrintf, getReadyResources, setReadyResources, ret.
  destruct readyResource as [obj|]; intros [= <- <-]; exists evs; simpl.
  - split; [done|]. split; [done|]. right. exists obj. rewrite Hr.
    split; [done|]. split; [done|].
    destruct (Hobj obj eq_refl) as [_ [flag Hlast]]. exists flag.
    apply last_Some in Hlast as [evs' ->]. apply elem_of_app. right. by left.
  - split; [done|]. split; [done|by left].
Qed.

(** A vertex with a dependency outside the ready set is skipped. *)
Lemma visitVertex_skips g resourceMap v vx dependency (s : @syncTask World) :
  graph.Vertices g !! v = Some vx ->
  dependency ∈ graph.Edges vx ->
  st_readyResources s !! dependency = None ->
  exists logs,
    visitVertex env g resourceMap v s =
    Some (None, mkSyncTask (st_bundle s) (st_readyResources s) (st_world s)
                           (st_trace s) (st_log s ++ logs)).
Proof.
  intros Hv Hin Hmissing. unfold visitVertex. rewrite Hv. unfold bind.
  destruct (dependenciesReady_run v (graph.Edges vx) s) as [logs ->].
  exists logs.
  assert (forallb (fun d => bool_decide (is_Some (st_readyResources s !! d)))
                  (graph.Edges vx) = false) as ->; [|done].
  apply not_true_is_false. rewrite forallb_forall. intros Hall.
  apply list_elem_of_In, Hall, bool_decide_eq_true in Hin as [obj Hobj]. congruence.
Qed.

Lemma visitVertices_ready g resourceMap sorted (s : @syncTask World) r s' :
  visitVertices env g resourceMap sorted s = Some (r, s') ->
  exists evs,
    st_trace s' = st_trace s ++ evs /\
    st_bundle s' = st_bundle s /\
    forall name obj,
      st_readyResources s' !! name = Some obj ->
      st_readyResources s !! name = Some obj \/ checkedReady evs obj.
Proof.
  revert s. induction sorted as [|v rest IH]; intros s; simpl.
  - intros [= <- <-]. exists []. rewrite app_nil_r. split; [done|]. split; [done|by left].
  - unfold bind.
    destruct (visitVertex env g resourceMap v s) as [[r1 s1]|] eqn:Hvisit; [|done].
    apply visitVertex_ready in Hvisit as (evs1 & Htr1 & Hb1 & Hready1).
    assert (forall name obj,
               st_readyResources s1 !! name = Some obj ->
               st_readyResources s !! name = Some obj \/ checkedReady evs1 obj) as Hstep.
    { intros name obj Hobj. destruct Hready1 as [Hsame|(obj' & Hins & _ & Hchecked)].
      - left. by rewrite <- Hsame.
      - rewrite Hins in Hobj. destruct (decide (v = name)) as [<-|Hne].
        + rewrite lookup_insert_eq in Hobj. injection Hobj as <-. by right.
        + rewrite lookup_insert_ne in Hobj by done. by left. }
    destruct r1 as [failure|].
    + intros [= <- <-]. exists evs1. by repeat split.
    + intros Hrest. apply IH in Hrest as (evs2 & Htr2 & Hb2 & Hready2).
      exists (evs1 ++ evs2). split; [by rewrite Htr2, Htr1, <- app_assoc|].
      split; [congruence|].
      intros name obj Hobj. destruct (Hready2 name obj Hobj) as [Hold|[flag Hnew]].
      * destruct (Hstep name obj Hold) as [?|[flag Hnew]]; [by left|].
        right. exists flag. apply elem_of_app. by left.
      * right. exists flag. apply elem_of_app. by right.
Qed.

End ReadySet.

Section ProcessFrame.

Context {World : Type}.
Variable env : Env World.

Lemma deleteRemovedResources_frame (s : @syncTask World) r s' :
  deleteRemovedResources env s = Some (r, s') ->
  st_readyResources s' = st_readyResources s /\
  exists evs, st_trace s' = st_trace s ++ evs.
Proof.
  destruct (Store_GetObjectsForBundle env (bundle_Namespace (st_bundle s))
                                      (bundle_Name (st_bundle s)) (st_world s))
    as [[objs|e] w] eqn:Hlist.
  - destruct (deleteRemovedResources_run env s objs w Hlist)
      as (r0 & s0 & chunks & logs & -> & Htr & _ & _ & _ & Hr & _).
    intros [= <- <-]. split; [done|]. by eexists.
  - unfold deleteRemovedResources, bind, getBundle, storeGetObjectsForBundle, invoke, ret.
    rewrite Hlist. intros [= <- <-]. split; [done|]. by eexists.
Qed.

End ProcessFrame.

Section Returns.

Import graph graph_order graph_facts.

Context {World : Type}.
Variable env : Env World.

Lemma buildResourceMap_lookup resources (m m' : gmap ResourceName Resource) v res :
  buildResourceMap env resources m = Ok m' ->
  m' !! v = Some res ->
  m !! v = Some res \/ (res ∈ resources /\ res_Name res = v).
Proof.
  revert m. induction resources as [|res0 rest IH]; intros m; simpl.
  - intros [= <-]. by left.
  - destruct (m !! res_Name res0) eqn:Hm; [done|]. intros Hrest Hv.
    destruct (IH _ Hrest Hv) as [Hins|[Hin Hname]].
    + destruct (decide (res_Name res0 = v)) as [<-|Hne].
      * rewrite lookup_insert_eq in Hins. injection Hins as <-. right. split; [by left|done].
      * rewrite lookup_insert_ne in Hins by done. by left.
    + right. split; [by right|done].
Qed.

Lemma sortBundle_vertices b g sorted v :
  sortBundle b = Ok (g, sorted) -> v ∈ sorted -> is_Some (Vertices g !! v).
Proof.
  unfold sortBundle.
  destruct (addAllEdges _ _) as [g1|] eqn:Hedges; [|done].
  destruct (TopologicalSort g1) as [sorted1|] eqn:Hsort; [|done].
  intros [= <- <-] Hin.
  apply (TopologicalSort_vertices _ _ _ Hsort) in Hin.
  apply addAllEdges_ok in Hedges as [(Horder & Hdom & _) _].
  destruct (addVertices_spec (bundle_Resources b)) as [Hnames Hvertices].
  apply Hdom, Hvertices. by rewrite <- Hnames, <- Horder.
Qed.

Lemma evalSpec_returns res (s : @syncTask World) :
  (forall d, d ∈ res_DependsOn res -> is_Some (st_readyResources s !! d)) ->
  exists r, evalSpec env res s = Some (r, s).
Proof.
  intros Hready. unfold evalSpec, bind, getReadyResources, getBundle, ret, panic.
  destruct (Resource_ToUnstructured env res); [|by eexists].
  destruct (Spec_ProcessObject env _ _ _ _); simpl; [|by eexists].
  destruct (checkOwnerReferences env _ _); [|by eexists].
  destruct (dependencyReferences_ready _ _ Hready) as (refs & -> & _). by eexists.
Qed.

Lemma checkResource_returns res (s : @syncTask World) :
  (forall d, d ∈ res_DependsOn res -> is_Some (st_readyResources s !! d)) ->
  exists r s', checkResource env res s = Some (r, s').
Proof.
  intros Hready. destruct (evalSpec_returns res s Hready) as [r Heval].
  unfold checkResource. unfold bind at 1. rewrite Heval.
  destruct r as [spec|e]; [|by eexists _, _].
  unfold bind at 1.
  destruct (createOrUpdate_frame env spec s) as (a & s1 & evs & -> & _).
  destruct a as [resUpdated|flag e]; [|by eexists _, _].
  unfold bind, IsReady, invoke, ret.
  destruct (ReadyChecker_IsReady env resUpdated (st_world s1)) as [[[ready flag] [e|]] w];
    simpl; [by eexists _, _|].
  destruct ready; by eexists _, _.
Qed.

Lemma visitVertex_returns g resourceMap v (s : @syncTask World) :
  visitable g resourceMap v ->
  exists r s', visitVertex env g resourceMap v s = Some (r, s').
Proof.
  intros (vx & Hv & Hdeps). unfold visitVertex. rewrite Hv. unfold bind at 1.
  destruct (dependenciesReady_run v (Edges vx) s) as [logs ->].
  destruct (forallb _ _) eqn:Hall; simpl; [|by eexists _, _].
  unfold bind at 1, logPrintf. unfold bind at 1.
  match goal with
  | |- context [checkResource env ?res ?s0] =>
      destruct (checkResource_returns res s0) as ([[readyResource flag] err] & s1 & ->)
  end.
  { intros d Hd. simpl. rewrite forallb_forall in Hall.
    apply Hdeps, list_elem_of_In, Hall in Hd. by apply bool_decide_eq_true in Hd. }
  destruct err; [by eexists _, _|].
  unfold bind, logPrintf, getReadyResources, setReadyResources, ret.
  destruct readyResource; by eexists _, _.
Qed.

Lemma visitVertices_returns g resourceMap sorted (s : @syncTask World) :
  (forall v, v ∈ sorted -> visitable g resourceMap v) ->
  exists r s', visitVertices env g resourceMap sorted s = Some (r, s').
Proof.
  revert s. induction sorted as [|v rest IH]; intros s Hall; simpl; [by eexists _, _|].
  unfold bind.
  destruct (visitVertex_returns g resourceMap v s) as (r & s1 & ->); [apply Hall; by left|].
  destruct r; [by eexists _, _|]. apply IH. intros w Hw. apply Hall. by right.
Qed.

Lemma deleteRemovedResources_returns (s : @syncTask World) :
  exists r s', deleteRemovedResources env s = Some (r, s').
Proof.
  destruct (Store_GetObjectsForBundle env (bundle_Namespace (st_bundle s))
                                      (bundle_Name (st_bundle s)) (st_world s))
    as [[objs|e] w] eqn:Hlist.
  - destruct (deleteRemovedResources_run env s objs w Hlist) as (r & s' & _ & _ & -> & _).
    by eexists _, _.
  - unfold deleteRemovedResources, bind, getBundle, storeGetObjectsForBundle, invoke, ret.
    rewrite Hlist. by eexists _, _.
Qed.

(** [process] always returns: the traversal only meets vertices of the
    graph, and a resource is evaluated only with its dependencies in the
    ready set. *)
Lemma process_returns (s : @syncTask World) :
  exists r s', process env s = Some (r, s').
Proof.
  unfold process. unfold bind at 1, getBundle.
  destruct (buildResourceMap env _ ∅) as [resourceMap|e] eqn:Hmap; [|by eexists _, _].
  destruct (sortBundle (st_bundle s)) as [[g sorted]|e] eqn:Hsort; [|by eexists _, _].
  unfold bind at 1, setReadyResources. unfold bind at 1.
  match goal with
  | |- context [visitVertices env g resourceMap sorted ?s0] =>
      destruct (visitVertices_returns g resourceMap sorted s0) as (r & s1 & ->)
  end.
  { intros v Hv. destruct (sortBundle_vertices _ _ _ _ Hsort Hv) as [vx Hvx].
    exists vx. split; [done|]. intros d Hd.
    destruct (resourceMap !! v) as [res|] eqn:Hres; simpl in Hd;
      [|by apply elem_of_nil in Hd].
    destruct (buildResourceMap_lookup _ _ _ _ _ Hmap Hres) as [Hempty|[Hin Hname]];
      [by rewrite lookup_empty in Hempty|].
    apply sortBundle_ok in Hsort as (_ & _ & Hedge & _).
    assert (edge g v d) as He by (apply Hedge; by exists res).
    unfold edge, edgesOf in He. by rewrite Hvx in He. }
  destruct r as [[flag e]|]; [by eexists _, _|].
  unfold bind. destruct (deleteRemovedResources_returns s1) as ([flag err] & s2 & ->).
  destruct err; by eexists _, _.
Qed.

End Returns.

Section Applied.

Context {World : Type}.
Variable env : Env World.

Lemma checkResource_applied res (s : @syncTask World) obj retriable err s' :
  checkResource env res s = Some ((Some obj, retriable, err), s') ->
  err = None /\ retriable = false /\
  exists spec s1 flag,
    evalSpec env res s = Some (Ok spec, s) /\
    createOrUpdate env spec s = Some (Applied obj, s1) /\
    st_trace s' = st_trace s1 ++ [EvIsReady obj (true, flag, None)].
Proof.
  unfold checkResource. unfold bind at 1.
  destruct (evalSpec env res s) as [[[spec|e] s0]|] eqn:Heval; [|done|done].
  apply evalSpec_frame in Heval as Hs0. subst s0. unfold bind at 1.
  destruct (createOrUpdate env spec s) as [[[applied|flag e] s1]|] eqn:Happly; [|done|done].
  unfold bind, IsReady, invoke, ret.
  destruct (ReadyChecker_IsReady env applied (st_world s1)) as [[[ready flag] [e|]] w];
    simpl; [done|].
  destruct ready; simpl; [|done]. intros [= <- <- <- <-].
  do 2 (split; [done|]). by exists spec, s1, flag.
Qed.

Lemma appliedAndReady_later res (s s1 s' : @syncTask World) obj evs :
  appliedAndReady env res s s1 obj ->
  st_trace s' = st_trace s1 ++ evs ->
  appliedAndReady env res s s' obj.
Proof.
  intros (spec & s0 & s2 & flag & pre & post & Hb & Hpre & Heval & Happly & Htr) Hlater.
  exists spec, s0, s2, flag, pre, (post ++ evs). do 4 (split; [done|]).
  rewrite Hlater, Htr, <- app_assoc. done.
Qed.

Lemma appliedAndReady_earlier res (s s1 s' : @syncTask World) obj evs :
  appliedAndReady env res s1 s' obj ->
  st_bundle s1 = st_bundle s ->
  st_trace s1 = st_trace s ++ evs ->
  appliedAndReady env res s s' obj.
Proof.
  intros (spec & s0 & s2 & flag & pre & post & Hb & Hpre & Heval & Happly & Htr) Hbundle Hearlier.
  exists spec, s0, s2, flag, (evs ++ pre), post. split; [congruence|].
  split; [by rewrite Hpre, Hearlier, <- app_assoc|]. done.
Qed.

(** One turn of the traversal adds to the ready set, under the name of
    the vertex, only the object that [createOrUpdate] handed out for the
    resource of that name and that the ready checker then called ready. *)
Lemma visitVertex_applied g resourceMap v (s : @syncTask World) r s' :
  visitVertex env g resourceMap v s = Some (r, s') ->
  st_readyResources s' = st_readyResources s \/
  exists obj, st_readyResources s' = <[v := obj]> (st_readyResources s) /\
              r = None /\
              appliedAndReady env (default zeroResource (resourceMap !! v)) s s' obj.
Proof.
  unfold visitVertex. destruct (graph.Vertices g !! v) as [vx|]; [|done].
  unfold bind at 1.
  destruct (dependenciesReady_run v (graph.Edges vx) s) as [logs ->].
  destruct (forallb _ _); simpl.
  2:{ intros [= <- <-]. by left. }
  unfold bind at 1, logPrintf. unfold bind at 1.
  destruct (checkResource env _ _) as [[[[readyResource retriable] err] s1]|] eqn:Hcheck;
    [|done].
  pose proof Hcheck as Hframe.
  apply checkResource_ready in Hframe as (evs & _ & _ & Hr & _). simpl in *.
  destruct err as [e|].
  { intros [= <- <-]. by left. }
  unfold bind, logPrintf, getReadyResources, setReadyResources, ret.
  destruct readyResource as [obj|]; intros [= <- <-]; simpl; [|by left].
  right. exists obj. rewrite Hr. do 2 (split; [done|]).
  apply checkResource_applied in Hcheck as (_ & _ & spec & s2 & flag & Heval & Happly & Htr).
  eexists spec, _, s2, flag, [], []. split; [|split; [|split; [exact Heval|]]].
  - done.
  - simpl. by rewrite app_nil_r.
  - split; [exact Happly|]. done.
Qed.

Lemma visitVertices_applied g resourceMap sorted (s : @syncTask World) r s' :
  visitVertices env g resourceMap sorted s = Some (r, s') ->
  forall name obj,
    st_readyResources s' !! name = Some obj ->
    st_readyResources s !! name = Some obj \/
    appliedAndReady env (default zeroResource (resourceMap !! name)) s s' obj.
Proof.
  revert s. induction sorted as [|v rest IH]; intros s; simpl.
  - intros [= <- <-] name obj Hobj. by left.
  - unfold bind.
    destruct (visitVertex env g resourceMap v s) as [[r1 s1]|] eqn:Hvisit; [|done].
    pose proof Hvisit as Hframe.
    apply visitVertex_ready in Hframe as (evs1 & Htr1 & Hb1 & _).
    apply visitVertex_applied in Hvisit as Hstep.
    assert (forall name obj,
               st_readyResources s1 !! name = Some obj ->
               st_readyResources s !! name = Some obj \/
               appliedAndReady env (default zeroResource (resourceMap !! name)) s s1 obj)
      as Hfirst.
    { intros name obj Hobj. destruct Hstep as [Hsame|(obj1 & Hins & _ & Happlied)].
      - left. by rewrite <- Hsame.
      - rewrite Hins in Hobj. destruct (decide (v = name)) as [<-|Hne].
        + rewrite lookup_insert_eq in Hobj. injection Hobj as <-. by right.
        + rewrite lookup_insert_ne in Hobj by done. by left. }
    destruct r1 as [failure|].
    + intros [= <- <-]. exact Hfirst.
    + intros Hrest name obj Hobj.
      pose proof Hrest as Hframe.
      apply visitVertices_ready in Hframe as (evs2 & Htr2 & Hb2 & _).
      destruct (IH _ Hrest name obj Hobj) as [Hold|Hnew].
      * destruct (Hfirst name obj Hold) as [?|Happlied]; [by left|].
        right. by eapply appliedAndReady_later.
      * right. by eapply appliedAndReady_earlier.
Qed.

End Applied.

(** C6.  During the traversal of [process], a vertex with an edge target
    outside the ready set is skipped: the turn ends without error, without
    a call to any collaborator and without a change, but for the log.
    [checkResource] returns an object only without error, and the object
    is the one that [createOrUpdate] handed out for the evaluated
    specification and that the ready checker, asked next about that very
    object, called ready.  A turn adds a name to the ready set only with
    such an object, for the resource of that name.  So [process] returns,
    and unless it stopped before the traversal and left the task as it
    was, every object of the ready set was handed out by [createOrUpdate]
    and then called ready by the ready checker during the pass. *)
Theorem ready_set_invariant {World} (env : Env World) :
  (forall g resourceMap v vx dependency (s : @syncTask World),
      graph.Vertices g !! v = Some vx ->
      dependency ∈ graph.Edges vx ->
      st_readyResources s !! dependency = None ->
      exists logs,
        visitVertex env g resourceMap v s =
        Some (None, mkSyncTask (st_bundle s) (st_readyResources s) (st_world s)
                               (st_trace s) (st_log s ++ logs))) /\
  (forall res (s : @syncTask World) obj retriable err s',
      checkResource env res s = Some ((Some obj, retriable, err), s') ->
      err = None /\
      exists spec s1 flag,
        evalSpec env res s = Some (Ok spec, s) /\
        createOrUpdate env spec s = Some (Applied obj, s1) /\
        st_trace s' = st_trace s1 ++ [EvIsReady obj (true, flag, None)]) /\
  (forall g resourceMap v (s : @syncTask World) r s',
      visitVertex env g resourceMap v s = Some (r, s') ->
      exists evs,
        st_trace s' = st_trace s ++ evs /\
        (st_readyResources s' = st_readyResources s \/
         exists obj, st_readyResources s' = <[v := obj]> (st_readyResources s) /\
                     r = None /\ checkedReady evs obj /\
                     appliedAndReady env (default zeroResource (resourceMap !! v))
                                     s s' obj)) /\
  (forall s : @syncTask World,
      exists r s' evs,
        process env s = Some (r, s') /\
        st_trace s' = st_trace s ++ evs /\
        (s' = s \/
         forall name obj,
           st_readyResources s' !! name = Some obj ->
           checkedReady evs obj /\
           exists resourceMap,
             buildResourceMap env (bundle_Resources (st_bundle s)) ∅ = Ok resourceMap /\
             appliedAndReady env (default zeroResource (resourceMap !! name)) s s' obj)).
Proof.
  split; [|split; [|split]].
  - intros g resourceMap v vx dependency s. apply visitVertex_skips.
  - intros res s obj retriable err s' Hcheck.
    apply checkResource_applied in Hcheck as (-> & _ & Happlied). by split.
  - intros g resourceMap v s r s' Hvisit.
    pose proof Hvisit as Hready.
    apply visitVertex_ready in Hready as (evs & Htr & _ & Hready).
    apply visitVertex_applied in Hvisit as Happlied.
    exists evs. split; [done|].
    destruct Hready as [Hsame|(obj & Hins & Hr & Hchecked)]; [by left|].
    destruct Happlied as [Hsame|(obj' & Hins' & _ & Happlied)].
    + left. done.
    + right. exists obj. do 3 (split; [done|]).
      assert (obj' = obj) as <-; [|done].
      rewrite Hins in Hins'.
      apply (f_equal (fun m => m !! v)) in Hins'. rewrite !lookup_insert_eq in Hins'.
      congruence.
  - intros s. destruct (process_returns env s) as (r & s' & Hrun).
    exists r, s'.
    cut (exists evs,
            st_trace s' = st_trace s ++ evs /\
            (s' = s \/
             forall name obj,
               st_readyResources s' !! name = Some obj ->
               checkedReady evs obj /\
               exists resourceMap,
                 buildResourceMap env (bundle_Resources (st_bundle s)) ∅ = Ok resourceMap /\
                 appliedAndReady env (default zeroResource (resourceMap !! name))
                                 s s' obj)).
    { intros (evs & Htr & Hready). by exists evs. }
    revert Hrun. unfold process. unfold bind at 1, getBundle.
    destruct (buildResourceMap env _ ∅) as [resourceMap|e] eqn:Hmap.
    2:{ intros [= <- <-]. exists []. rewrite app_nil_r. split; [done|by left]. }
    destruct (sortBundle (st_bundle s)) as [[g sorted]|e].
    2:{ intros [= <- <-]. exists []. rewrite app_nil_r. split; [done|by left]. }
    unfold bind at 1, setReadyResources. unfold bind at 1.
    destruct (visitVertices env g resourceMap sorted _) as [[failure s1]|] eqn:Hvisit;
      [|done].
    pose proof Hvisit as Happlied.
    apply visitVertices_ready in Hvisit as (evs1 & Htr1 & _ & Hready1).
    pose proof (visitVertices_applied env _ _ _ _ _ _ Happlied) as Happlied1.
    simpl in *.
    assert (forall name obj,
               st_readyResources s1 !! name = Some obj ->
               checkedReady evs1 obj /\
               appliedAndReady env (default zeroResource (resourceMap !! name)) s s1 obj)
      as Hchecked.
    { intros name obj Hobj. split.
      - destruct (Hready1 name obj Hobj) as [Hempty|?]; [|done].
        by rewrite lookup_empty in Hempty.
      - destruct (Happlied1 name obj Hobj) as [Hempty|Hnew];
          [by rewrite lookup_empty in Hempty|].
        eapply (appliedAndReady_earlier env _ _ _ _ _ []); [exact Hnew|done|].
        simpl. by rewrite app_nil_r. }
    destruct failure as [[retriable e]|].
    { intros [= <- <-]. exists evs1. split; [done|]. right.
      intros name obj Hobj. destruct (Hchecked name obj Hobj) as [? ?].
      split; [done|]. by exists resourceMap. }
    unfold bind.
    destruct (deleteRemovedResources env s1) as [[[retriable err] s2]|] eqn:Hdelete;
      [|done].
    apply deleteRemovedResources_frame in Hdelete as [Hr2 [evs2 Htr2]].
    assert (st_trace s2 = st_trace s ++ evs1 ++ evs2) as Htr
        by (by rewrite Htr2, Htr1, <- app_assoc).
    assert (forall name obj,
               st_readyResources s2 !! name = Some obj ->
               checkedReady (evs1 ++ evs2) obj /\
               exists resourceMap0,
                 Ok resourceMap = Ok resourceMap0 /\
                 appliedAndReady env (default zeroResource (resourceMap0 !! name))
                                 s s2 obj) as Hall.
    { intros name obj Hobj. rewrite Hr2 in Hobj.
      destruct (Hchecked name obj Hobj) as [[flag Hin] Happ]. split.
      - exists flag. apply elem_of_app. by left.
      - exists resourceMap. split; [done|]. by eapply appliedAndReady_later. }
    destruct err; intros [= <- <-]; exists (evs1 ++ evs2); (split; [done|by right]).
Qed.

Lemma ready_set_invariant_witness :
  (exists logs,
      visitVertex (Scenario.calm [])
                  (graph.mkGraph {[ "B" := graph.mkVertex ["A"] ]} ["B"]) ∅ "B"
                  (Scenario.start (Scenario.bundleOf [] []))
      = Some (None, mkSyncTask (Scenario.bundleOf [] []) ∅ tt [] ([] ++ logs))) /\
  (exists obj s' spec s1 flag,
      checkResource (Scenario.calm []) (mkResource "a" [] (Scenario.object "a" "" []))
                    (Scenario.start (Scenario.bundleOf [] []))
      = Some ((Some obj, false, None), s') /\
      createOrUpdate (Scenario.calm []) spec (Scenario.start (Scenario.bundleOf [] []))
      = Some (Applied obj, s1) /\
      st_trace s' = st_trace s1 ++ [EvIsReady obj (true, flag, None)]).
Proof.
  split.
  - eapply (proj1 (ready_set_invariant (Scenario.calm []))
                  (graph.mkGraph {[ "B" := graph.mkVertex ["A"] ]} ["B"]) ∅ "B"
                  (graph.mkVertex ["A"]) "A" (Scenario.start (Scenario.bundleOf [] []))).
    + reflexivity.
    + by left.
    + reflexivity.
  - eexists _, _.
    destruct (proj1 (proj2 (ready_set_invariant (Scenario.calm [])))
                    (mkResource "a" [] (Scenario.object "a" "" []))
                    (Scenario.start (Scenario.bundleOf [] [])) _ false None _
                    ltac:(vm_compute; reflexivity))
      as (_ & spec & s1 & flag & _ & Happly & Htrace).
    exists spec, s1, flag. split; [vm_compute; reflexivity|]. split; [exact Happly|exact Htrace].
Defined.

(** ** Labels *)

Lemma mergeLabels_snoc (labels : list (gmap string string)) (m : gmap string string) k :
  mergeLabels (labels ++ [m]) !! k =
  match m !! k with
  | Some v => Some v
  | None => mergeLabels labels !! k
  end.
Proof.
  unfold mergeLabels. rewrite foldl_app. simpl. rewrite lookup_union.
  destruct (m !! k), (foldl _ _ _ !! k); done.
Qed.

Lemma mergeLabels_three (a b c : gmap string string) k :
  mergeLabels [a; b; c] !! k =
  match c !! k with
  | Some v => Some v
  | None => match b !! k with
            | Some v => Some v
            | None => a !! k
            end
  end.
Proof.
  change [a; b; c] with (([a] ++ [b]) ++ [c]). rewrite !mergeLabels_snoc.
  destruct (c !! k); [done|]. destruct (b !! k); [done|].
  unfold mergeLabels. simpl. rewrite lookup_union, lookup_empty. by destruct (a !! k).
Qed.

(** X1.  [mergeLabels] gives a key the value of the last map that holds
    it, and leaves out the keys that no map holds. *)
Theorem mergeLabels_last_wins (labels : list (gmap string string)) (k : string) :
  mergeLabels labels !! k = last (omap (fun m : gmap string string => m !! k) labels).
Proof.
  induction labels as [|m labels IH] using rev_ind; [done|].
  rewrite mergeLabels_snoc, omap_app, IH. simpl.
  destruct (m !! k) as [v|]; simpl.
  - by rewrite last_snoc.
  - by rewrite app_nil_r.
Qed.

(** ** The evaluated specification *)

Section EvalSpec.

Context {World : Type}.
Variable env : Env World.

Lemma checkOwnerReferences_ok name refs refs' :
  checkOwnerReferences env name refs = Ok refs' ->
  forall ref, ref ∈ refs -> ref_Controller ref <> Some true.
Proof.
  revert refs'. induction refs as [|ref0 rest IH]; intros refs' Hok ref Hin.
  - by apply elem_of_nil in Hin.
  - simpl in Hok.
    destruct (checkOwnerReferences env name rest) as [rest'|e] eqn:Hrest.
    + apply elem_of_cons in Hin as [->|Hin]; [|by eapply IH].
      by destruct (ref_Controller ref0) as [[|]|].
    + by destruct (ref_Controller ref0) as [[|]|].
Qed.

Lemma dependencyReferences_missing (ready : gmap ResourceName Unstructured) deps :
  dependencyReferences ready deps = None <->
  exists dep, dep ∈ deps /\ ready !! dep = None.
Proof.
  induction deps as [|dep rest IH]; simpl.
  - split; [done|]. intros (dep & Hin & _). by apply elem_of_nil in Hin.
  - destruct (ready !! dep) as [obj|] eqn:Hdep.
    + destruct (dependencyReferences ready rest) as [refs|].
      * split; [done|]. intros (d & Hin & Hd).
        apply elem_of_cons in Hin as [->|Hin]; [congruence|].
        destruct IH as [_ IH]. discriminate IH. by exists d.
      * split; [|done]. intros _. destruct IH as [IH _].
        destruct (IH eq_refl) as (d & Hin & Hd). exists d. split; [by right|done].
    + split; [|done]. intros _. exists dep. split; [by left|done].
Qed.

(** X2.  [evalSpec] panics exactly when the conversion, the references and
    the incoming owner references are fine, and an entry of [dependsOn] is
    not in the ready set: it reads the nil object of that entry. *)
Theorem evalSpec_panics (res : Resource) (s : @syncTask World) :
  evalSpec env res s = None <->
  exists spec0 spec1,
    Resource_ToUnstructured env res = Ok spec0 /\
    Spec_ProcessObject env (res_Name res) (st_readyResources s) (res_DependsOn res) spec0
    = Ok spec1 /\
    (forall ref, ref ∈ obj_OwnerReferences spec1 -> ref_Controller ref <> Some true) /\
    exists dep, dep ∈ res_DependsOn res /\ st_readyResources s !! dep = None.
Proof.
  unfold evalSpec, bind, getReadyResources, getBundle, ret, panic.
  destruct (Resource_ToUnstructured env res) as [spec0|e] eqn:Hconvert.
  2:{ split; [done|]. intros (? & ? & Hno & _). discriminate Hno. }
  destruct (Spec_ProcessObject env _ _ _ spec0) as [spec1|e] eqn:Hprocess; simpl.
  2:{ split; [done|]. intros (? & ? & [= <-] & Hno & _). congruence. }
  destruct (checkOwnerReferences env _ _) as [refs|e] eqn:Hrefs.
  - pose proof (checkOwnerReferences_ok _ _ _ Hrefs) as Hplain. simpl in Hplain.
    destruct (dependencyReferences _ _) as [deps|] eqn:Hdeps.
    + split; [done|]. intros (? & ? & _ & _ & _ & Hmissing).
      apply dependencyReferences_missing in Hmissing. congruence.
    + split; [|done]. intros _. exists spec0, spec1.
      do 2 (split; [done|]). split; [done|]. by apply dependencyReferences_missing.
  - split; [done|]. intros (? & spec1' & [= <-] & Hsame & Hplain & _).
    assert (spec1' = spec1) as -> by congruence.
    simpl in Hrefs. by rewrite (checkOwnerReferences_plain env _ _ Hplain) in Hrefs.
Qed.

(** X3.  The specification that [evalSpec] returns is the one with the
    references resolved, but for its labels and owner references: it is
    labelled with the name of the bundle, whatever label of that key the
    bundle or the specification carry, and for any other key the label of
    the specification wins over the label of the bundle. *)
Theorem evalSpec_labels (res : Resource) (s : @syncTask World) (spec : Unstructured)
        (s' : @syncTask World) :
  evalSpec env res s = Some (Ok spec, s') ->
  exists spec0 spec1,
    Resource_ToUnstructured env res = Ok spec0 /\
    Spec_ProcessObject env (res_Name res) (st_readyResources s) (res_DependsOn res) spec0
    = Ok spec1 /\
    obj_GVK spec = obj_GVK spec1 /\ obj_Name spec = obj_Name spec1 /\
    obj_UID spec = obj_UID spec1 /\ obj_Content spec = obj_Content spec1 /\
    obj_DeletionTimestamp spec = obj_DeletionTimestamp spec1 /\
    obj_Labels spec !! BundleNameLabel env = Some (bundle_Name (st_bundle s)) /\
    forall k, k <> BundleNameLabel env ->
              obj_Labels spec !! k =
              match obj_Labels spec1 !! k with
              | Some v => Some v
              | None => bundle_Labels (st_bundle s) !! k
              end.
Proof.
  unfold evalSpec, bind, getReadyResources, getBundle, ret, panic.
  destruct (Resource_ToUnstructured env res) as [spec0|e] eqn:Hconvert; [|done].
  destruct (Spec_ProcessObject env _ _ _ spec0) as [spec1|e] eqn:Hprocess; simpl; [|done].
  destruct (checkOwnerReferences env _ _) as [refs|e]; [|done].
  destruct (dependencyReferences _ _) as [deps|]; [|done].
  intros [= <- <-]. exists spec0, spec1. simpl. do 7 (split; [done|]).
  split.
  - rewrite mergeLabels_three. by rewrite lookup_singleton_eq.
  - intros k Hk. rewrite mergeLabels_three. by rewrite lookup_singleton_ne.
Qed.

End EvalSpec.

Lemma evalSpec_labels_witness :
  exists spec,
    evalSpec (Scenario.calm [])
             (mkResource "a" []
                         (mkUnstructured Scenario.configMap "a" ""
                                         {[ "bundleName" := "other"; "tier" := "db" ]}
                                         [] None []))
             (Scenario.start
                (mkBundle "ns" "bundle" "uid-bundle" {[ "tier" := "web"; "team" := "x" ]}
                          [] []))
    = Some (Ok spec,
            (Scenario.start
                (mkBundle "ns" "bundle" "uid-bundle" {[ "tier" := "web"; "team" := "x" ]}
                          [] []))) /\
    obj_Labels spec !! "bundleName" = Some "bundle" /\
    obj_Labels spec !! "tier" = Some "db" /\
    obj_Labels spec !! "team" = Some "x".
Proof.
  exists (mkUnstructured
                Scenario.configMap "a" ""
                (mergeLabels [ {[ "tier" := "web"; "team" := "x" ]};
                               {[ "bundleName" := "other"; "tier" := "db" ]};
                               {[ "bundleName" := "bundle" ]} ])
                [Scenario.controllerRef "uid-bundle"] None []).
  split; [reflexivity|].
  destruct (evalSpec_labels
              (Scenario.calm [])
              (mkResource "a" []
                         (mkUnstructured Scenario.configMap "a" ""
                                         {[ "bundleName" := "other"; "tier" := "db" ]}
                                         [] None []))
              (Scenario.start
                (mkBundle "ns" "bundle" "uid-bundle" {[ "tier" := "web"; "team" := "x" ]}
                          [] []))
              (mkUnstructured
                Scenario.configMap "a" ""
                (mergeLabels [ {[ "tier" := "web"; "team" := "x" ]};
                               {[ "bundleName" := "other"; "tier" := "db" ]};
                               {[ "bundleName" := "bundle" ]} ])
                [Scenario.controllerRef "uid-bundle"] None [])
              (Scenario.start
                (mkBundle "ns" "bundle" "uid-bundle" {[ "tier" := "web"; "team" := "x" ]}
                          [] []))
              eq_refl)
    as (spec0 & spec1 & Hconvert & Hprocess & _ & _ & _ & _ & _ & Hname & Hother).
  injection Hconvert as <-. injection Hprocess as <-.
  split; [exact Hname|].
  split; [exact (Hother "tier" ltac:(discriminate))
         |exact (Hother "team" ltac:(discriminate))].
Defined.

(** ** The writes of [createOrUpdate] *)

(** X4.  [createOrUpdate] writes at most once.  It creates, with the
    specification itself, only an object that the store does not hold; it
    updates, with the object that the comparison hands out, only an object
    that the store holds and that differs; and it returns an object
    without writing only when the store holds it and the comparison finds
    it equal. *)
Theorem createOrUpdate_writes_once {World} (env : Env World)
        (spec : Unstructured) (s : @syncTask World) :
  exists a s' evs,
    createOrUpdate env spec s = Some (a, s') /\
    st_trace s' = st_trace s ++ evs /\
    let namespace := bundle_Namespace (st_bundle s) in
    let c := mkResourceClient (obj_GVK spec) namespace in
    let looked := EvStoreGet (obj_GVK spec) namespace (obj_Name spec) in
    (List.filter isWrite evs = [] /\
     forall obj, a = Applied obj ->
                 exists actual, looked (Ok (Some actual)) ∈ evs /\
                                SpecCheck_CompareActualVsSpec env spec actual
                                = Ok (obj, true)) \/
    (exists resp, List.filter isWrite evs = [EvCreate c spec resp] /\
                  looked (Ok None) ∈ evs) \/
    (exists actual updated resp,
        List.filter isWrite evs = [EvUpdate c updated resp] /\
        looked (Ok (Some actual)) ∈ evs /\
        SpecCheck_CompareActualVsSpec env spec actual = Ok (updated, false)).
Proof.
  run_createOrUpdate;
    (eexists _, _, _; split; [reflexivity|];
     split; [simpl; rewrite <- ?app_assoc; reflexivity|]); simpl.
  all: first
         [ left; split; [reflexivity|]; intros obj Hobj; discriminate Hobj
         | left; split; [reflexivity|]; intros obj Hobj; injection Hobj as <-;
           eexists; (split; [right; by left|done])
         | right; left; eexists; (split; [reflexivity|right; by left])
         | right; right; eexists _, _, _; split; [reflexivity|];
           (split; [right; by left|done]) ].
Qed.


(** ** The calls of a pass *)

Ltac calls_in_namespace :=
  repeat first
         [ apply Forall_nil_2
         | apply List.Forall_cons; [split; [reflexivity|by intros n [= <-]]|] ].

Section Calls.

Context {World : Type}.
Variable env : Env World.

Lemma createOrUpdate_calls spec (s : @syncTask World) :
  exists a s' evs,
    createOrUpdate env spec s = Some (a, s') /\
    st_trace s' = st_trace s ++ evs /\
    st_bundle s' = st_bundle s /\
    Forall (applyCall (bundle_Namespace (st_bundle s))) evs.
Proof.
  run_createOrUpdate;
    (eexists _, _, _; split; [reflexivity|];
     split; [simpl; rewrite <- ?app_assoc; reflexivity|]); simpl.
  all: split; [done|]; calls_in_namespace.
Qed.

Lemma checkResource_calls res (s : @syncTask World) r s' :
  checkResource env res s = Some (r, s') ->
  exists evs,
    st_trace s' = st_trace s ++ evs /\
    Forall (applyCall (bundle_Namespace (st_bundle s))) evs.
Proof.
  unfold checkResource. unfold bind at 1.
  destruct (evalSpec env res s) as [[[spec|e] s0]|] eqn:Heval; [| |done].
  2:{ apply evalSpec_frame in Heval as ->. intros [= <- <-].
      exists []. by rewrite app_nil_r. }
  apply evalSpec_frame in Heval as ->. unfold bind at 1.
  destruct (createOrUpdate_calls spec s) as (a & s1 & evs & -> & Htr & Hb & Hcalls).
  destruct a as [resUpdated|flag e].
  2:{ intros [= <- <-]. by exists evs. }
  unfold bind, IsReady, invoke, ret.
  destruct (ReadyChecker_IsReady env resUpdated (st_world s1))
    as [[[ready flag] [e|]] w] eqn:Hready; simpl.
  2: destruct ready; simpl.
  all: intros [= <- <-]; eexists (evs ++ [_]); simpl; rewrite Htr, <- app_assoc;
    (split; [reflexivity|]); apply Forall_app; (split; [done|]); calls_in_namespace.
Qed.

Lemma visitVertex_calls g resourceMap v (s : @syncTask World) r s' :
  visitVertex env g resourceMap v s = Some (r, s') ->
  exists evs,
    st_trace s' = st_trace s ++ evs /\
    Forall (applyCall (bundle_Namespace (st_bundle s))) evs.
Proof.
  unfold visitVertex. destruct (graph.Vertices g !! v) as [vx|]; [|done].
  unfold bind at 1.
  destruct (dependenciesReady_run v (graph.Edges vx) s) as [logs ->].
  destruct (forallb _ _); simpl.
  2:{ intros [= <- <-]. exists []. by rewrite app_nil_r. }
  unfold bind at 1, logPrintf. unfold bind at 1.
  destruct (checkResource env _ _) as [[[[readyResource retriable] err] s1]|] eqn:Hcheck;
    [|done].
  apply checkResource_calls in Hcheck as (evs & Htr & Hcalls). simpl in *.
  destruct err as [e|]; [intros [= <- <-]; by exists evs|].
  unfold bind, logPrintf, getReadyResources, setReadyResources, ret.
  destruct readyResource as [obj|]; intros [= <- <-]; by exists evs.
Qed.

Lemma visitVertices_calls g resourceMap sorted (s : @syncTask World) r s' :
  visitVertices env g resourceMap sorted s = Some (r, s') ->
  exists evs,
    st_trace s' = st_trace s ++ evs /\
    st_bundle s' = st_bundle s /\
    Forall (applyCall (bundle_Namespace (st_bundle s))) evs.
Proof.
  revert s. induction sorted as [|v rest IH]; intros s; simpl.
  - intros [= <- <-]. exists []. by rewrite app_nil_r.
  - unfold bind.
    destruct (visitVertex env g resourceMap v s) as [[r1 s1]|] eqn:Hvisit; [|done].
    destruct (visitVertex_calls _ _ _ _ _ _ Hvisit) as (evs1 & Htr1 & Hcalls1).
    apply visitVertex_ready in Hvisit as (_ & _ & Hb1 & _).
    destruct r1 as [failure|].
    + intros [= <- <-]. by exists evs1.
    + intros Hrest. apply IH in Hrest as (evs2 & Htr2 & Hb2 & Hcalls2).
      exists (evs1 ++ evs2). rewrite Htr2, Htr1, <- app_assoc. split; [done|].
      split; [congruence|]. apply Forall_app. split; [done|]. by rewrite <- Hb1.
Qed.

Lemma attempt_deletionCall b target evs :
  attempt b target evs -> Forall (deletionCall (bundle_Namespace b)) evs.
Proof. intros [[e ->]|[resp ->]]; calls_in_namespace. Qed.

Lemma attempts_deletionCalls b targets chunks :
  Forall2 (attempt b) targets chunks ->
  Forall (deletionCall (bundle_Namespace b)) (concat chunks).
Proof.
  induction 1 as [|target evs targets chunks Hone _ IH]; simpl; [constructor|].
  apply Forall_app. split; [exact (attempt_deletionCall _ _ _ Hone)|done].
Qed.

(** [deleteRemovedResources] lists the objects of the bundle, then runs the
    deletion loop; it ends without error only when the listing succeeded
    and the loop counted no failure. *)
Lemma deleteRemovedResources_calls (s : @syncTask World) :
  let b := st_bundle s in
  exists r s' resp dels,
    deleteRemovedResources env s = Some (r, s') /\
    st_bundle s' = b /\
    st_trace s' = st_trace s ++
                  EvStoreGetObjectsForBundle (bundle_Namespace b) (bundle_Name b) resp
                  :: dels /\
    Forall (deletionCall (bundle_Namespace b)) dels /\
    (r.2 = None -> (exists objs, resp = Ok objs) /\ failures dels = []).
Proof.
  intros b.
  destruct (Store_GetObjectsForBundle env (bundle_Namespace b) (bundle_Name b) (st_world s))
    as [[objs|e] w] eqn:Hlist.
  - destruct (deleteRemovedResources_run env s objs w Hlist)
      as (r & s' & chunks & logs & Hrun & Htr & Hall & _ & Hb & _ & Hr & _).
    exists r, s', (Ok objs), (concat chunks). do 3 (split; [done|]).
    split; [exact (attempts_deletionCalls _ _ _ Hall)|].
    intros Hnil. split; [by eexists|]. rewrite Hr in Hnil.
    by destruct (failures (concat chunks)) as [|[client e] rest].
  - unfold deleteRemovedResources, bind, getBundle, storeGetObjectsForBundle, invoke, ret.
    fold b. rewrite Hlist. eexists _, _, (Err e), []. split; [reflexivity|]. simpl.
    do 2 (split; [done|]). split; [constructor|]. done.
Qed.

(** The whole pass: the calls that bring the resources up, then the
    listing and the deletions, when the pass gets that far. *)
Lemma process_calls (s : @syncTask World) r s' :
  let b := st_bundle s in
  process env s = Some (r, s') ->
  exists applies gc,
    st_bundle s' = b /\
    st_trace s' = st_trace s ++ applies ++ gc /\
    Forall (applyCall (bundle_Namespace b)) applies /\
    ((gc = [] /\ exists e, r.2 = Some e) \/
     exists resp dels,
       gc = EvStoreGetObjectsForBundle (bundle_Namespace b) (bundle_Name b) resp :: dels /\
       Forall (deletionCall (bundle_Namespace b)) dels /\
       (r.2 = None -> r.1 = false /\ (exists objs, resp = Ok objs) /\ failures dels = [])).
Proof.
  intros b. unfold process. unfold bind at 1, getBundle. fold b.
  destruct (buildResourceMap env _ ∅) as [resourceMap|e] eqn:Hmap.
  2:{ intros [= <- <-]. exists [], []. rewrite !app_nil_r.
      do 2 (split; [done|]). split; [constructor|]. left. by eauto. }
  destruct (sortBundle b) as [[g sorted]|e] eqn:Hsort.
  2:{ intros [= <- <-]. exists [], []. rewrite !app_nil_r.
      do 2 (split; [done|]). split; [constructor|]. left. by eauto. }
  unfold bind at 1, setReadyResources. unfold bind at 1.
  destruct (visitVertices env g resourceMap sorted _) as [[r1 s1]|] eqn:Hvisit; [|done].
  apply visitVertices_calls in Hvisit as (applies & Htr1 & Hb1 & Hcalls). simpl in *.
  destruct r1 as [[flag e]|].
  { intros [= <- <-]. exists applies, []. rewrite app_nil_r.
    do 2 (split; [done|]). split; [done|]. left. by eauto. }
  unfold bind.
  destruct (deleteRemovedResources_calls s1)
    as ([flag err] & s2 & resp & dels & -> & Hb2 & Htr2 & Hdels & Hnil).
  rewrite Hb1 in Hb2, Htr2, Hdels. fold b in Hb2, Htr2, Hdels.
  destruct err as [e|]; intros [= <- <-];
    exists applies,
           (EvStoreGetObjectsForBundle (bundle_Namespace b) (bundle_Name b) resp :: dels);
    (split; [done|]); (split; [by rewrite Htr2, Htr1, <- app_assoc|]);
    (split; [done|]); right; exists resp, dels; (do 2 (split; [done|])); simpl.
  - done.
  - intros _. split; [done|]. by apply Hnil.
Qed.

End Calls.

(** X6.  A pass of [process] first makes the calls that bring the
    resources up (client, store lookup, create, update, ready check), and
    only then lists the objects of the bundle and deletes; when it ends
    before the listing it ends with an error.  Every call that names a
    namespace names the namespace of the bundle, the status of the bundle
    is not written, and the bundle is left as it was. *)
Theorem process_call_order {World} (env : Env World) (s : @syncTask World) :
  exists r s' applies gc,
    process env s = Some (r, s') /\
    st_bundle s' = st_bundle s /\
    st_trace s' = st_trace s ++ applies ++ gc /\
    Forall (applyCall (bundle_Namespace (st_bundle s))) applies /\
    ((gc = [] /\ exists e, r.2 = Some e) \/
     exists resp dels,
       gc = EvStoreGetObjectsForBundle (bundle_Namespace (st_bundle s))
                                       (bundle_Name (st_bundle s)) resp :: dels /\
       Forall (deletionCall (bundle_Namespace (st_bundle s))) dels).
Proof.
  destruct (process_returns env s) as (r & s' & Hrun).
  destruct (process_calls env s r s' Hrun) as (applies & gc & Hb & Htr & Hcalls & Hgc).
  exists r, s', applies, gc. do 4 (split; [done|]).
  destruct Hgc as [Hstopped|(resp & dels & Hgc & Hdels & _)]; [by left|].
  right. by exists resp, dels.
Qed.

(** X7.  When [process] returns a nil error it returns
    [retriable = false], whatever flag the ready checker gave for a
    resource that is not ready; the pass then has listed the objects of the
    bundle with success, and no call of the deletion loop has failed with
    an error that counts. *)
Theorem process_nil_error {World} (env : Env World) (s : @syncTask World)
        (retriable : bool) (s' : @syncTask World) :
  process env s = Some ((retriable, None), s') ->
  retriable = false /\
  exists applies objs dels,
    st_trace s' = st_trace s ++ applies ++
                  EvStoreGetObjectsForBundle (bundle_Namespace (st_bundle s))
                                             (bundle_Name (st_bundle s)) (Ok objs)
                  :: dels /\
    failures dels = [].
Proof.
  intros Hrun.
  destruct (process_calls env s _ s' Hrun) as (applies & gc & _ & Htr & _ & Hgc).
  destruct Hgc as [[_ [e He]]|(resp & dels & -> & _ & Hnil)]; [done|].
  destruct (Hnil eq_refl) as (Hflag & [objs ->] & Hclean).
  split; [done|]. by exists applies, objs, dels.
Qed.

Lemma process_nil_error_witness :
  exists s',
    process (Scenario.tableEnv (fun _ => None) [] Ok Ok (fun _ => None)
                               (fun _ => (false, true, None)) Ok)
            (Scenario.start
               (Scenario.bundleOf [mkResource "a" [] (Scenario.object "a" "" [])] []))
    = Some ((false, None), s') /\
    (false = false /\
     exists applies objs dels,
       st_trace s' = [] ++ applies ++
                     EvStoreGetObjectsForBundle "ns" "bundle" (Ok objs) :: dels /\
       failures dels = []).
Proof.
  eexists. split; [vm_compute; reflexivity|].
  apply (process_nil_error
           (Scenario.tableEnv (fun _ => None) [] Ok Ok (fun _ => None)
                              (fun _ => (false, true, None)) Ok)
           (Scenario.start
              (Scenario.bundleOf [mkResource "a" [] (Scenario.object "a" "" [])] []))
           false).
  vm_compute; reflexivity.
Defined.

(** X8.  The traversal never takes a name out of the ready set, and it
    leaves alone the names that it does not visit. *)
Theorem visitVertices_ready_grows {World} (env : Env World) (g : graph.Graph)
        (resourceMap : gmap ResourceName Resource) (sorted : list graph.V)
        (s : @syncTask World) (r : option (bool * error)) (s' : @syncTask World) :
  visitVertices env g resourceMap sorted s = Some (r, s') ->
  forall name,
    (is_Some (st_readyResources s !! name) -> is_Some (st_readyResources s' !! name)) /\
    (name ∉ sorted -> st_readyResources s' !! name = st_readyResources s !! name).
Proof.
  revert s. induction sorted as [|v rest IH]; intros s; simpl.
  - by intros [= <- <-] name.
  - unfold bind.
    destruct (visitVertex env g resourceMap v s) as [[r1 s1]|] eqn:Hvisit; [|done].
    apply visitVertex_ready in Hvisit as (evs & _ & _ & Hready).
    assert (forall name,
               (is_Some (st_readyResources s !! name) ->
                is_Some (st_readyResources s1 !! name)) /\
               (name <> v -> st_readyResources s1 !! name = st_readyResources s !! name))
      as Hstep.
    { intros name. destruct Hready as [->|(obj & -> & _)]; [done|]. split.
      - intros Hin. destruct (decide (name = v)) as [->|Hne].
        + rewrite lookup_insert_eq. by eexists.
        + by rewrite lookup_insert_ne.
      - intros Hne. by rewrite lookup_insert_ne. }
    destruct r1 as [failure|].
    + intros [= <- <-] name. destruct (Hstep name) as [Hkeeps Hother].
      split; [done|]. intros Hout. apply Hother. intros ->. apply Hout. by left.
    + intros Hrest name. destruct (Hstep name) as [Hkeeps Hother].
      destruct (IH _ Hrest name) as [Hkeeps' Hother']. split.
      * intros Hin. by apply Hkeeps', Hkeeps.
      * intros Hout. rewrite Hother'; [apply Hother|].
        -- intros ->. apply Hout. by left.
        -- intros Hin. apply Hout. by right.
Qed.

Lemma visitVertices_ready_grows_witness :
  exists s',
    visitVertices (Scenario.calm [])
                  (graph.mkGraph {[ "a" := graph.mkVertex [] ]} ["a"])
                  {[ "a" := mkResource "a" [] (Scenario.object "a" "" []) ]} ["a"]
                  (mkSyncTask (Scenario.bundleOf [] [])
                              {[ "b" := Scenario.object "b" "uid-b" [] ]} tt [] [])
    = Some (None, s') /\
    st_readyResources s' !! "b" = Some (Scenario.object "b" "uid-b" []).
Proof.
  eexists. split; [vm_compute; reflexivity|].
  refine (proj2 (visitVertices_ready_grows
                   (Scenario.calm [])
                   (graph.mkGraph {[ "a" := graph.mkVertex [] ]} ["a"])
                   {[ "a" := mkResource "a" [] (Scenario.object "a" "" []) ]} ["a"]
                   (mkSyncTask (Scenario.bundleOf [] [])
                               {[ "b" := Scenario.object "b" "uid-b" [] ]} tt [] [])
                   None _ _ "b") _).
  - vm_compute; reflexivity.
  - intros Hin. apply elem_of_cons in Hin as [Hin|Hin]; [discriminate Hin|].
    by apply elem_of_nil in Hin.
Defined.

(** X9.  [checkResource] returns neither an object nor an error only when
    the specification was evaluated, [createOrUpdate] handed out an
    object, and the ready checker, asked about that object, answered
    without error that it is not ready; the flag returned is the one of
    the ready checker. *)
Theorem checkResource_not_ready {World} (env : Env World) (res : Resource)
        (s : @syncTask World) (retriable : bool) (s' : @syncTask World) :
  checkResource env res s = Some ((None, retriable, None), s') ->
  exists spec obj s1,
    evalSpec env res s = Some (Ok spec, s) /\
    createOrUpdate env spec s = Some (Applied obj, s1) /\
    st_trace s' = st_trace s1 ++ [EvIsReady obj (false, retriable, None)].
Proof.
  unfold checkResource. unfold bind at 1.
  destruct (evalSpec env res s) as [[[spec|e] s0]|] eqn:Heval; [|done|done].
  apply evalSpec_frame in Heval as Hs0. subst s0. unfold bind at 1.
  destruct (createOrUpdate env spec s) as [[[obj|flag e] s1]|] eqn:Happly; [|done|done].
  unfold bind, IsReady, invoke, ret.
  destruct (ReadyChecker_IsReady env obj (st_world s1)) as [[[ready flag] [e|]] w];
    simpl; [done|].
  destruct ready; simpl; [done|]. intros [= <- <-]. by exists spec, obj, s1.
Qed.

Lemma checkResource_not_ready_witness :
  exists s' spec obj s1,
    checkResource (Scenario.tableEnv (fun _ => None) [] Ok Ok (fun _ => None)
                                     (fun _ => (false, true, None)) Ok)
                  (mkResource "a" [] (Scenario.object "a" "" []))
                  (Scenario.start (Scenario.bundleOf [] []))
    = Some ((None, true, None), s') /\
    createOrUpdate (Scenario.tableEnv (fun _ => None) [] Ok Ok (fun _ => None)
                                      (fun _ => (false, true, None)) Ok)
                   spec (Scenario.start (Scenario.bundleOf [] []))
    = Some (Applied obj, s1) /\
    st_trace s' = st_trace s1 ++ [EvIsReady obj (false, true, None)].
Proof.
  eexists.
  destruct (checkResource_not_ready
              (Scenario.tableEnv (fun _ => None) [] Ok Ok (fun _ => None)
                                 (fun _ => (false, true, None)) Ok)
              (mkResource "a" [] (Scenario.object "a" "" []))
              (Scenario.start (Scenario.bundleOf [] [])) true _
              ltac:(vm_compute; reflexivity))
    as (spec & obj & s1 & _ & Happly & Htrace).
  exists spec, obj, s1. split; [vm_compute; reflexivity|]. split; [exact Happly|exact Htrace].
Defined.

(** X10.  When the pass failed, [handleProcessResult] returns the error of
    the pass itself: a failure to write the status never takes its place.
    The flag is the one passed in, but for a cancelled or expired context,
    where it is [false]. *)
Theorem handleProcessResult_keeps_process_error {World} (env : Env World)
        (retriable : bool) (e : error) (s : @syncTask World) :
  exists s',
    handleProcessResult env retriable (Some e) s
    = Some ((if isContextError (Some e) then false else retriable, Some e), s') /\
    st_readyResources s' = st_readyResources s.
Proof.
  destruct (isConflictCaused (Some e)) eqn:Hconflict.
  { exists s. unfold handleProcessResult. rewrite Hconflict. split; [|done].
    by destruct e. }
  destruct (isContextError (Some e)) eqn:Hcontext.
  { exists s. unfold handleProcessResult. by rewrite Hconflict, Hcontext. }
  destruct (handleProcessResult_run env retriable (Some e) s Hconflict Hcontext)
    as (bundleReady & r & s' & Hrun & _ & _ & Hready & Hwrite).
  exists s'. split; [|done]. rewrite Hrun.
  destruct (foldInto _ _).2.
  - by destruct Hwrite as (resp & _ & _ & ->).
  - by destruct Hwrite as [_ ->].
Qed.

(** ** Names of third party resources *)

Section TprNames.

Import app.

Lemma IndexByte_absent s c : c ∉ s -> IndexByte s c = (-1)%Z.
Proof.
  induction s as [|b rest IH]; intros Hnot; simpl; [done|].
  apply not_elem_of_cons in Hnot as [Hne Hrest].
  rewrite decide_False by done. by rewrite IH, decide_True.
Qed.

Lemma IndexByte_first prefix c rest :
  c ∉ prefix -> IndexByte (prefix ++ c :: rest) c = Z.of_nat (length prefix).
Proof.
  induction prefix as [|b prefix IH]; intros Hnot; simpl.
  - by rewrite decide_True.
  - apply not_elem_of_cons in Hnot as [Hne Hrest].
    rewrite decide_False by done. rewrite IH by done.
    rewrite decide_False by lia. lia.
Qed.

Lemma Replace_delete s old :
  Replace s old [] = filter (fun b => b <> old) s.
Proof.
  induction s as [|b rest IH]; simpl; [done|].
  destruct (decide (b = old)) as [->|Hne].
  - rewrite filter_cons_False by (intros H; by apply H). done.
  - rewrite filter_cons_True by done. by rewrite IH.
Qed.

Lemma filter_nil_all (s : list ascii) old :
  filter (fun b => b <> old) s = [] <-> Forall (fun b => b = old) s.
Proof.
  induction s as [|b rest IH]; [split; [constructor|done]|].
  destruct (decide (b = old)) as [->|Hne].
  - rewrite filter_cons_False by (intros H; by apply H). rewrite IH.
    split; [by constructor|by inversion 1].
  - rewrite filter_cons_True by done. split; [done|by inversion 1].
Qed.

(** [splitTprName] on a name with a first dot. *)
Lemma splitTprName_first_dot prefix rest :
  "."%char ∉ prefix -> prefix <> [] ->
  splitTprName (prefix ++ "."%char :: rest) =
  let resourcePath := filter (fun b => b <> "-"%char) prefix in
  match last resourcePath with
  | None => Panics indexOutOfRange
  | Some b =>
      Returns (if decide (b = "s"%char) then resourcePath ++ bytes "es"
               else if decide (b = "y"%char)
                    then take (length resourcePath - 1) resourcePath ++ bytes "ies"
                    else resourcePath ++ bytes "s",
               rest)
  end.
Proof.
  intros Hnot Hne. unfold splitTprName. rewrite IndexByte_first by done.
  assert (length prefix <> 0) by (by destruct prefix).
  rewrite decide_False by lia. rewrite Nat2Z.id.
  rewrite take_app_length, Replace_delete.
  replace (Z.to_nat (Z.of_nat (length prefix) + 1)) with (length prefix + 1) by lia.
  rewrite drop_app_add. simpl. rewrite drop_0. reflexivity.
Qed.

(** X11.  [splitTprName] panics exactly on the names without a dot and on
    the names whose part before the first dot is empty or made of dashes
    only; in the last case, with a part that is not empty, the panic is
    the index out of range of the runtime, not the error of the code. *)
Theorem splitTprName_panics (name : list ascii) :
  ((exists p, splitTprName name = Panics p) <->
   "."%char ∉ name \/
   exists prefix rest, name = prefix ++ "."%char :: rest /\
                       Forall (fun b => b = "-"%char) prefix) /\
  (forall prefix rest,
      name = prefix ++ "."%char :: rest -> prefix <> [] ->
      Forall (fun b => b = "-"%char) prefix ->
      splitTprName name = Panics indexOutOfRange).
Proof.
  assert (forall prefix rest,
             name = prefix ++ "."%char :: rest -> prefix <> [] ->
             Forall (fun b => b = "-"%char) prefix ->
             splitTprName name = Panics indexOutOfRange) as Hrange.
  { intros prefix rest -> Hne Hdashes.
    rewrite splitTprName_first_dot; [|intros Hin|done].
    - simpl. apply filter_nil_all in Hdashes. by rewrite Hdashes.
    - rewrite Forall_forall in Hdashes. by apply Hdashes in Hin. }
  split; [|done]. split.
  - intros [p Hp]. destruct (decide ("."%char ∈ name)) as [Hin|?]; [|by left].
    right. apply list_elem_of_split_l in Hin as (prefix & rest & -> & Hnot).
    exists prefix, rest. split; [done|].
    destruct (decide (prefix = [])) as [->|Hne]; [constructor|].
    rewrite splitTprName_first_dot in Hp by done. simpl in Hp.
    destruct (last _) eqn:Hlast; [done|].
    by apply last_None, filter_nil_all in Hlast.
  - intros [Hnot|(prefix & rest & -> & Hdashes)].
    + unfold splitTprName. rewrite IndexByte_absent by done.
      rewrite decide_True by (by left). by eexists.
    + destruct (decide (prefix = [])) as [->|Hne].
      * unfold splitTprName. simpl. by eexists.
      * erewrite Hrange by done. by eexists.
Qed.

(** X12.  On any other name [splitTprName] returns: the group is all that
    follows the first dot, and the path ends in "s" and holds neither a
    dash nor a dot. *)
Theorem splitTprName_returns (prefix rest : list ascii) :
  "."%char ∉ prefix ->
  ~ Forall (fun b => b = "-"%char) prefix ->
  exists path,
    splitTprName (prefix ++ "."%char :: rest) = Returns (path, rest) /\
    last path = Some "s"%char /\ ("-"%char ∉ path) /\ ("."%char ∉ path).
Proof.
  intros Hnot Hdashes.
  assert (prefix <> []) as Hne by (intros ->; apply Hdashes; constructor).
  rewrite splitTprName_first_dot by done. simpl.
  set (resourcePath := filter (fun b => b <> "-"%char) prefix).
  assert (forall b, b ∈ resourcePath -> b <> "-"%char /\ b <> "."%char) as Hclean.
  { intros b Hb. apply list_elem_of_filter in Hb as [? Hb]. split; [done|].
    by intros ->. }
  assert (forall b, b ∈ take (length resourcePath - 1) resourcePath ->
                    b <> "-"%char /\ b <> "."%char) as Hstem.
  { intros b Hb. apply Hclean. by eapply subseteq_take. }
  destruct (last resourcePath) as [b|] eqn:Hlast.
  2:{ destruct Hdashes. by apply filter_nil_all, last_None. }
  eexists. split; [reflexivity|].
  destruct (decide (b = "s"%char)); [|destruct (decide (b = "y"%char))];
    (split; [by rewrite last_app|]);
    split; intros Hin; apply elem_of_app in Hin as [Hin|Hin];
    try (by apply Hclean in Hin as [? ?]); try (by apply Hstem in Hin as [? ?]);
    repeat (apply elem_of_cons in Hin as [Hin|Hin]; [discriminate Hin|]);
    by apply elem_of_nil in Hin.
Qed.

End TprNames.

Lemma splitTprName_returns_witness :
  exists path,
    app.splitTprName (app.bytes "postgresql-resource" ++
                      "."%char :: app.bytes "smith-sql.ash2k.com")
    = app.Returns (path, app.bytes "smith-sql.ash2k.com") /\
    last path = Some "s"%char /\ ("-"%char ∉ path) /\ ("."%char ∉ path).
Proof.
  apply (splitTprName_returns (app.bytes "postgresql-resource")
                              (app.bytes "smith-sql.ash2k.com")).
  - intros Hin. vm_compute in Hin.
    repeat (apply elem_of_cons in Hin as [Hin|Hin]; [discriminate Hin|]).
    by apply elem_of_nil in Hin.
  - intros Hall. vm_compute in Hall. apply Forall_cons in Hall as [Hp _].
    discriminate Hp.
Defined.

Section WatchFacts.

Import app.

Variable AllNamespaces : list ascii.


End WatchFacts.
